(** * Token cache and impersonated-credential exchange of duizendstra/go

    A shallow embedding of

    - [google/auth/serviceaccount/token_cache.go] (the mutex-guarded
      [TokenCache] with the plain [userEmail|scope,scope] key),
    - the [serviceaccount] package that builds, signs and exchanges the JWT
      assertion ([createJWTAssertion], [getAccessToken],
      [GenerateGoogleHTTPClient]),
    - [google/apierrors/apierrors.go] ([GoogleAPIError], [HandleError]),
    - the part of [google/structuredlogger/structured.go] those call,

    followed by the properties of the specification that concern them. *)

From Stdlib Require Import ZArith Lia.
From stdpp Require Import gmap strings list fin_maps pretty.

Local Open Scope Z_scope.

(** ** Go values shared by all packages *)

(** The double quote character, for the JSON text the code produces. *)
Definition dquote : string :=
  String (Ascii.Ascii false true false false false true false false) EmptyString.

(** [strings.Join(elems, sep)]. *)
Fixpoint strings_Join (elems : list string) (sep : string) : string :=
  match elems with
  | [] => EmptyString
  | [e] => e
  | e :: rest => e +:+ sep +:+ strings_Join rest sep
  end.

(** Comparison of a string with the empty string. *)
Definition is_empty (s : string) : bool :=
  match s with EmptyString => true | String _ _ => false end.

(** A [time.Time] instant, in nanoseconds since the Unix epoch.  The zero
    [time.Time] is not an instant of this type: a field that may hold it is
    an [option Time]. *)
Definition Time : Type := Z.

Definition Second : Z := 1000000000.
Definition Hour : Z := 3600 * Second.

(** [t.Unix()]: whole seconds since the epoch. *)
Definition Unix (t : Time) : Z := t `div` Second.

(** The arithmetic of Go's [int64]. *)
Definition wrap64 (z : Z) : Z := (z + 2 ^ 63) `mod` 2 ^ 64 - 2 ^ 63.

(** The largest [Unix()] reading of a [time.Time]: the type counts its
    seconds from the year 1 in an [int64]. *)
Definition maxUnix : Z := 2 ^ 63 - 1 - 62135596800.

(** ** golang.org/x/oauth2: the token type the cache stores

    The library is not part of the repository; [Token], [expired] and [Valid]
    transcribe its [token.go]. *)
Module oauth2.

(** [Expiry] is [None] for the zero time, which the library reads as
  never expiring. *)
Record Token : Type := mkToken {
  AccessToken : string;
  Expiry : option Time
}.

(** Tokens count as expired this long before their expiry. *)
Definition expiryDelta : Z := 10 * Second.

(** [t.expired()]:
    [if t.Expiry.IsZero() { return false }]
    [return t.Expiry.Round(0).Add(-expiryDelta).Before(timeNow())]. *)
Definition expired (t : Token) (now : Time) : bool :=
  match Expiry t with
  | None => false
  | Some e => e - expiryDelta <? now
  end.

(** [t.Valid()] for a non-nil [t]: the access token is not the empty string
  and [t] is not [expired]. *)
Definition Valid (t : Token) (now : Time) : bool :=
  negb (is_empty (AccessToken t)) && negb (expired t now).

Global Instance Token_eq_dec : EqDecision Token.
Proof. solve_decision. Defined.

End oauth2.

Import oauth2.

(** ** package serviceaccount: token_cache.go *)

(** [tokens map[string]*oauth2.Token]: a stored pointer may be nil, which is
    [Some None] here.  The [sync.Mutex] held for the whole of [GetToken] and
    of [SetToken] makes each of them one atomic step on the map, which is
    how they are written below. *)
Record TokenCache : Type := mkTokenCache {
  tokens : gmap string (option Token)
}.

(** [NewTokenCache()]. *)
Definition NewTokenCache : TokenCache := {| tokens := ∅ |}.

(** [getKey]: [fmt.Sprintf("%s|%s", userEmail, strings.Join(scopes, ","))]. *)
Definition getKey (userEmail : string) (scopes : list string) : string :=
  userEmail +:+ "|" +:+ strings_Join scopes ",".

(** [GetToken], called when the clock reads [now]; the result is the pair the
    Go function returns together with the cache it leaves behind. *)
Definition GetToken (c : TokenCache) (now : Time)
    (userEmail : string) (scopes : list string)
    : (option Token * bool) * TokenCache :=
  let key := getKey userEmail scopes in
  match tokens c !! key with
  | None | Some None =>
      (* Token not found in cache *)
      ((None, false), c)
  | Some (Some token) =>
      if negb (Valid token now) then
        (* Token is expired *)
        ((None, false), {| tokens := delete key (tokens c) |})
      else
        (* Return valid token *)
        ((Some token, true), c)
  end.

(** [SetToken]. *)
Definition SetToken (c : TokenCache)
    (userEmail : string) (scopes : list string) (token : option Token)
    : TokenCache :=
  let key := getKey userEmail scopes in
  {| tokens := <[key := token]> (tokens c) |}.

(** *** Sequences of cache operations *)

Inductive CacheOp : Type :=
| OpSet (userEmail : string) (scopes : list string) (token : option Token)
| OpGet (userEmail : string) (scopes : list string).

(** What a caller of [GetToken] saw, and when. *)
Record Observation : Type := mkObservation {
  obs_time : Time;
  obs_token : option Token;
  obs_found : bool
}.

(** Runs the operations in order, each at its own clock reading, and collects
    what the [GetToken] calls returned. *)
Fixpoint run (c : TokenCache) (ops : list (Time * CacheOp))
    : list Observation * TokenCache :=
  match ops with
  | [] => ([], c)
  | (_, OpSet u s t) :: rest => run (SetToken c u s t) rest
  | (now, OpGet u s) :: rest =>
      let '((tok, found), c') := GetToken c now u s in
      let '(obs, c'') := run c' rest in
      (mkObservation now tok found :: obs, c'')
  end.

(** ** Go errors *)

(** [*apierrors.GoogleAPIError], the type [HandleError] switches on. *)
Module apierrors_types.
Record GoogleAPIError : Type := mkGoogleAPIError {
  StatusCode : Z;
  Body : string;
  ErrorCode : string;
  ErrorMessage : string
}.
End apierrors_types.

Import apierrors_types.

(** [*errors.GoogleAPIError] of the package google/errors, which the
    serviceaccount package imports for the error of a refused exchange.  The
    package is not among the sources; the two fields are the ones the code
    fills in.  It is another type than the one of apierrors. *)
Module google_errors.
Record GoogleAPIError : Type := mkGoogleAPIError {
  StatusCode : Z;
  Body : string
}.
End google_errors.

(** The dynamic types of [error] values that occur in the modelled code. *)
Inductive error : Type :=
| errorString (msg : string)
    (* [fmt.Errorf] without [%w], [errors.New], and the errors of libraries *)
| wrapError (msg : string) (err : error)
    (* [fmt.Errorf(msg + ": %w", err)] *)
| apiError (e : GoogleAPIError)
    (* [&apierrors.GoogleAPIError{...}] *)
| upstreamError (e : google_errors.GoogleAPIError) (text : string).
    (* [&errors.GoogleAPIError{...}], with the text its [Error] method gives *)

Inductive result (A : Type) : Type :=
| Ok (a : A)
| Err (err : error).

Arguments Ok {A} a.
Arguments Err {A} err.

(** The [Error] method of [GoogleAPIError] in apierrors.go: the error code part is always
    printed and the message part is always empty. *)
Definition GoogleAPIError_Error (e : GoogleAPIError) : string :=
  let errorCodePart := " (Error Code: " +:+ ErrorCode e +:+ ")" in
  let errorMessagePart := EmptyString in
  "API request failed with status " +:+ pretty (StatusCode e)
    +:+ errorCodePart +:+ errorMessagePart.

(** [err.Error()]. *)
Fixpoint Error (err : error) : string :=
  match err with
  | errorString msg => msg
  | wrapError msg inner => msg +:+ ": " +:+ Error inner
  | apiError e => GoogleAPIError_Error e
  | upstreamError _ text => text
  end.

(** ** package structuredlogger: what [LogError] and [LogDebug] do *)
Module structuredlogger.

(** The [any] values passed as log arguments. *)
Inductive any : Type :=
| AString (s : string)
| AInt (z : Z)
| ABool (b : bool)
| AError (err : error)
| ACaller. (* the file/line/function group [runtime.Caller(2)] reports *)

Record Attr : Type := mkAttr { Key : string; Value : any }.

Record StructuredLogger : Type := mkLogger {
  component : string;
  traceID : string;
  spanID : string;
  traceSampled : bool;
  minLevel : Z (* the [Level] of the handler behind [logger] *)
}.

Definition LevelDebug : Z := -4.
Definition LevelInfo : Z := 0.
Definition LevelError : Z := 8.

(** One record handed to the slog handler. *)
Record LogRecord : Type := mkLogRecord {
  rec_level : Z;
  rec_msg : string;
  rec_attrs : list Attr
}.

(** Process additional args as attributes: pairs whose key is a string;
  a pair with another key and a trailing single argument are skipped. *)
Fixpoint argsToAttrs (args : list any) : list Attr :=
  match args with
  | k :: v :: rest =>
      match k with
      | AString key => mkAttr key v :: argsToAttrs rest
      | _ => argsToAttrs rest
      end
  | _ => []
  end.

(** The attributes [Log] builds before it calls [LogAttrs]. *)
Definition Log_attrs (sl : StructuredLogger) (level : Z) (args : list any)
    : list Attr :=
  [mkAttr "component" (AString (component sl))]
  ++ (if is_empty (traceID sl) then []
      else [mkAttr "logging.googleapis.com/trace" (AString (traceID sl))])
  ++ (if is_empty (spanID sl) then []
      else [mkAttr "logging.googleapis.com/spanId" (AString (spanID sl))])
  ++ (if traceSampled sl
      then [mkAttr "logging.googleapis.com/trace_sampled" (ABool true)]
      else [])
  ++ (if LevelError <=? level
      then [mkAttr "logging.googleapis.com/sourceLocation" ACaller]
      else [])
  ++ argsToAttrs args.

(** [Log]: the record reaches the writer when the handler is enabled for
    its level. *)
Definition Log (sl : StructuredLogger) (level : Z) (msg : string)
    (args : list any) : list LogRecord :=
  if minLevel sl <=? level
  then [mkLogRecord level msg (Log_attrs sl level args)]
  else [].

(** [NewStructuredLogger(projectID, component, nil, nil)]. *)
Definition NewStructuredLogger (component : string) : StructuredLogger :=
  mkLogger component EmptyString EmptyString false LevelInfo.

End structuredlogger.

Import structuredlogger.

(** ** The world outside the process *)

Module http.
(** What the code reads of an [*http.Response]. *)
Record Response : Type := mkResponse {
  StatusCode : Z;
  Body : string
}.

Definition StatusOK : Z := 200.
Definition StatusInternalServerError : Z := 500.
End http.

(** [url.Values], in the order the literal lists its keys. *)
Definition url_Values : Type := list (string * list string).

(** The calls that leave the process, and the log records written. *)
Inductive Event : Type :=
| EvSignJwt (name payload : string)
| EvPostForm (url : string) (data : url_Values)
| EvLog (r : LogRecord).

(** The mutable state a request handler runs in: the trace of events so far
    and the token cache of the process. *)
Record World : Type := mkWorld {
  trace : list Event;
  cache : TokenCache
}.

(** [iam.SignJwtResponse], as far as the code reads it. *)
Record SignJwtResponse : Type := mkSignJwtResponse { SignedJwt : string }.

(** [IAMServiceClient]: the interface of the signer.  What a call returns may
    depend on everything that happened before it, so the method receives the
    trace. *)
Class IAMServiceClient (T : Type) : Type := {
  SignJwt : T -> list Event -> string -> string -> result SignJwtResponse
}.

(** The library and network functions the code calls. *)
Class Platform : Type := {
  (** [encoding/json]'s rendering of a Go string as a JSON string literal,
      quotes included. *)
  json_String : string -> string;
  (** [json.NewDecoder(body).Decode(&tokenResponse)] for a struct whose one
      field is tagged [access_token]: an error, or the string the body binds
      to that key ([None] when the object has no such key). *)
  json_Decode_access_token : string -> result (option string);
  (** [http.PostForm(url, data)]. *)
  http_PostForm : list Event -> string -> url_Values -> result http.Response;
  (** The [Error] method of [errors.GoogleAPIError], declared outside the
      sources, for a value with this status code and body. *)
  errors_GoogleAPIError_Error : Z -> string -> string
}.

(** *** A state monad over the world *)

Definition M (A : Type) : Type := World -> A * World.

Definition ret {A : Type} (a : A) : M A := fun w => (a, w).

Definition bind {A B : Type} (m : M A) (k : A -> M B) : M B :=
  fun w => let '(a, w') := m w in k a w'.

Declare Scope go_scope.
Delimit Scope go_scope with go.
Notation "x <- m ;; k" := (bind m (fun x => k))
  (at level 100, m at next level, right associativity) : go_scope.
Notation "m ;;; k" := (bind m (fun _ => k))
  (at level 100, right associativity) : go_scope.
Local Open Scope go_scope.

Definition emit (e : Event) : M unit :=
  fun w => (tt, {| trace := trace w ++ [e]; cache := cache w |}).

Definition emits (es : list Event) : M unit :=
  fun w => (tt, {| trace := trace w ++ es; cache := cache w |}).

Definition history : M (list Event) := fun w => (trace w, w).

(** [logger.LogError(ctx, msg, args...)]. *)
Definition LogError (sl : StructuredLogger) (msg : string) (args : list any)
    : M unit :=
  emits (EvLog <$> Log sl LevelError msg args).

(** [logger.LogDebug(ctx, msg, args...)]. *)
Definition LogDebug (sl : StructuredLogger) (msg : string) (args : list any)
    : M unit :=
  emits (EvLog <$> Log sl LevelDebug msg args).

(** [iamClient.SignJwt(ctx, name, payload)]. *)
Definition call_SignJwt {T : Type} {IAM : IAMServiceClient T} (iamClient : T)
    (name payload : string) : M (result SignJwtResponse) :=
  h <- history ;;
  emit (EvSignJwt name payload) ;;;
  ret (SignJwt iamClient h name payload).

(** [http.PostForm(url, data)]. *)
Definition call_PostForm {P : Platform} (url : string) (data : url_Values)
    : M (result http.Response) :=
  h <- history ;;
  emit (EvPostForm url data) ;;;
  ret (http_PostForm h url data).

(** ** package serviceaccount: the assertion, the exchange and the factory *)

(** [JWTClaims], with the field order of its json tags. *)
Record JWTClaims : Type := mkJWTClaims {
  Iss : string;
  Sub : string;
  Scope : string;
  Aud : string;
  Iat : Z;
  Exp : Z
}.

(** The audience every assertion carries. *)
Definition tokenEndpoint : string := "https://oauth2.googleapis.com/token".

(** One member of a JSON object: the quoted key, a colon and the value. *)
Definition json_member (key value : string) : string :=
  dquote +:+ key +:+ dquote +:+ ":" +:+ value.

(** [json.Marshal(jwtPayload)].  A struct of strings and [int64]s has no
    value the encoder refuses, so the error of the Go call is never set. *)
Definition json_Marshal {P : Platform} (c : JWTClaims) : result string :=
  Ok ("{" +:+ json_member "iss" (json_String (Iss c))
      +:+ "," +:+ json_member "sub" (json_String (Sub c))
      +:+ "," +:+ json_member "scope" (json_String (Scope c))
      +:+ "," +:+ json_member "aud" (json_String (Aud c))
      +:+ "," +:+ json_member "iat" (pretty (Iat c))
      +:+ "," +:+ json_member "exp" (pretty (Exp c))
      +:+ "}").

(** The claims [createJWTAssertion] fills in when [time.Now()] is [now]. *)
Definition jwtPayload (now : Time)
    (targetServiceAccount userEmail scopes : string) : JWTClaims :=
  let now := Unix now in
  {| Iss := targetServiceAccount;
     Sub := userEmail;
     Scope := scopes;
     Aud := tokenEndpoint;
     Iat := now;
     Exp := wrap64 (now + 3600) (* Token expiration time (1 hour) *) |}.

(** The error of a call that lacks one of its three inputs. *)
Definition validationError : error :=
  errorString "service account, user email, and scopes must all be provided".

(** [createJWTAssertion], run when [time.Now()] is [now]. *)
Definition createJWTAssertion {P : Platform} (now : Time)
    (targetServiceAccount userEmail scopes : string) : result string :=
  if is_empty targetServiceAccount || is_empty userEmail || is_empty scopes
  then Err validationError
  else
    match json_Marshal (jwtPayload now targetServiceAccount userEmail scopes) with
    | Err err => Err (wrapError "error marshaling JWT payload" err)
    | Ok payloadBytes => Ok payloadBytes
    end.

(** The form [getAccessToken] posts. *)
Definition grantForm (signedJwt : string) : url_Values :=
  [("grant_type", ["urn:ietf:params:oauth:grant-type:jwt-bearer"]);
   ("assertion", [signedJwt])].

(** [getAccessToken]. *)
Definition getAccessToken {P : Platform} (logger : StructuredLogger)
    (tokenUrl signedJwt : string) : M (result string) :=
  let data := grantForm signedJwt in
  r <- call_PostForm tokenUrl data ;;
  match r with
  | Err err =>
      LogError logger "Error posting to token URL"
        [AString "url"; AString tokenUrl; AString "error"; AError err] ;;;
      ret (Err (wrapError "error posting to token endpoint" err))
  | Ok resp =>
      if negb (http.StatusCode resp =? http.StatusOK) then
        let body := http.Body resp in
        LogError logger "Non-OK response from token URL"
          [AString "status"; AInt (http.StatusCode resp);
           AString "body"; AString body] ;;;
        ret (Err (upstreamError
                    {| google_errors.StatusCode := http.StatusCode resp;
                       google_errors.Body := body |}
                    (errors_GoogleAPIError_Error (http.StatusCode resp) body)))
      else
        (* [var tokenResponse struct { AccessToken string }] starts out with
           the empty string and keeps it when the body has no such key *)
        match json_Decode_access_token (http.Body resp) with
        | Err err =>
            LogError logger "Error decoding access token response"
              [AString "error"; AError err] ;;;
            ret (Err (wrapError "error unmarshaling token response" err))
        | Ok field =>
            let tokenResponse_AccessToken := default EmptyString field in
            ret (Ok tokenResponse_AccessToken)
        end
  end.

(** The [*http.Client] of [oauth2.NewClient(ctx, oauth2.StaticTokenSource(t))]:
    all that distinguishes it is the token its transport attaches. *)
Record Client : Type := mkClient { Source : Token }.

(** The [Authorization] header the transport of the client sets on each
    request. *)
Definition authorization (c : Client) : string :=
  "Bearer " +:+ AccessToken (Source c).

(** [GenerateGoogleHTTPClient], with the variadic [tokenURL] as a list. *)
Definition GenerateGoogleHTTPClient {P : Platform} {T : Type} {IAM : IAMServiceClient T}
    (now : Time) (logger : StructuredLogger) (iamClient : T)
    (targetServiceAccount userEmail scopes : string) (tokenURL : list string)
    : M (result Client) :=
  match createJWTAssertion now targetServiceAccount userEmail scopes with
  | Err err =>
      LogError logger "Error creating JWT assertion"
        [AString "error"; AError err] ;;;
      ret (Err (wrapError "error creating JWT assertion" err))
  | Ok jwtAssertion =>
      let name := "projects/-/serviceAccounts/" +:+ targetServiceAccount in
      r <- call_SignJwt iamClient name jwtAssertion ;;
      match r with
      | Err err =>
          LogError logger "Error signing JWT" [AString "error"; AError err] ;;;
          ret (Err (wrapError "error signing JWT" err))
      | Ok signJwtResponse =>
          let tokenUrl :=
            match tokenURL with
            | [] => tokenEndpoint
            | first :: _ => first
            end in
          r <- getAccessToken logger tokenUrl (SignedJwt signJwtResponse) ;;
          match r with
          | Err err =>
              LogError logger "Error getting access token"
                [AString "error"; AError err] ;;;
              ret (Err err)
          | Ok accessToken =>
              let tokenSource :=
                {| AccessToken := accessToken; Expiry := None |} in
              ret (Ok (mkClient tokenSource))
          end
      end
  end.

(** *** The factory that takes the token cache *)
Module cached.

(** Modelled from the spec: the [GenerateGoogleHTTPClient] with a token cache
    among its arguments, which the test of the package and the base service
    client call and which is not among the sources.  As the specification
    has it: the cache is looked up first, and on a hit the client is made
    from the cached token with no network call; on a miss the chain of
    build, sign and exchange runs, which is the factory of the sources, any
    failure is returned and nothing is cached; on success the new token is
    stored, before the function returns, under the key the lookup used.  The
    key is that of the acting user and the scopes; [scopeList] stands for the
    list of scopes the cache is given for the scopes string, on which the
    specification is silent. *)
Definition GenerateGoogleHTTPClient {P : Platform} {T : Type}
    {IAM : IAMServiceClient T} (scopeList : string -> list string)
    (now : Time) (logger : StructuredLogger) (iamClient : T)
    (targetServiceAccount userEmail scopes : string) (tokenURL : list string)
    : M (result Client) :=
  fun w =>
    (* CacheLookup *)
    let lookup := GetToken (cache w) now userEmail (scopeList scopes) in
    let looked := {| trace := trace w; cache := snd lookup |} in
    match fst lookup with
    | (Some token, true) => (Ok (mkClient token), looked)
    | _ =>
        (* BuildAssertion, Sign, Exchange *)
        let built :=
          GenerateGoogleHTTPClient now logger iamClient targetServiceAccount
            userEmail scopes tokenURL looked in
        match fst built with
        | Err err => (Err err, snd built)
        | Ok client =>
            (* StoreCache *)
            (Ok client,
             {| trace := trace (snd built);
                cache := SetToken (cache (snd built)) userEmail
                           (scopeList scopes) (Some (Source client)) |})
        end
    end.

End cached.

(** ** package apierrors: HandleError *)

(** The calls [http.Error] makes on an [http.ResponseWriter], and the panic
    in which a call can end. *)
Inductive WriterCall : Type :=
| HeaderSet (key value : string)
| WriteHeader (statusCode : Z)
| Write (data : string)
| Panic (value : string).

(** An [http.ResponseWriter], as the calls made on it so far. *)
Definition ResponseWriter : Type := list WriterCall.

Definition newline : string :=
  String (Ascii.Ascii false true false true false false false false) EmptyString.

(** The status codes [WriteHeader] accepts: three digits, from 100. *)
Definition validStatus (code : Z) : bool := (100 <=? code) && (code <=? 999).

(** [http.Error(w, msg, code)]: the two headers of a plain-text reply, the
    status line, and the message followed by a newline.  [WriteHeader]
    panics on a code that is not a valid status; the panic ends the handler,
    so neither status nor message is written. *)
Definition http_Error (w : ResponseWriter) (msg : string) (code : Z)
    : ResponseWriter :=
  w ++ [HeaderSet "Content-Type" "text/plain; charset=utf-8";
        HeaderSet "X-Content-Type-Options" "nosniff"]
    ++ (if validStatus code
        then [WriteHeader code; Write (msg +:+ newline)]
        else [Panic ("invalid WriteHeader code " +:+ pretty code)]).

(** The status of the reply: that of the first [WriteHeader]. *)
Fixpoint reply_status (w : ResponseWriter) : option Z :=
  match w with
  | [] => None
  | WriteHeader code :: _ => Some code
  | _ :: rest => reply_status rest
  end.

(** The body of the reply: everything written, in order. *)
Fixpoint reply_body (w : ResponseWriter) : string :=
  match w with
  | [] => EmptyString
  | Write data :: rest => data +:+ reply_body rest
  | _ :: rest => reply_body rest
  end.

(** [HandleError]: the type switch on [err] has a case for
    [*GoogleAPIError] and a default. *)
Definition HandleError (logger : StructuredLogger) (w : ResponseWriter)
    (err : error) : M ResponseWriter :=
  match err with
  | apiError e =>
      LogError logger "API request failed"
        [AString "statusCode"; AInt (StatusCode e);
         AString "errorCode"; AString (ErrorCode e);
         AString "errorMessage"; AString (ErrorMessage e)] ;;;
      ret (http_Error w "An error occurred while processing your request"
             (StatusCode e))
  | _ =>
      LogError logger "Internal server error"
        [AString "error"; AString (Error err)] ;;;
      ret (http_Error w "Internal server error" http.StatusInternalServerError)
  end.

(** The other [HandleError] of the repository (the copy that documents its
    steps): it leaves the error message out of the log when there is none,
    and logs a body that is not empty at debug level. *)
Module apierrors_documented.

(** The [Error] method of [GoogleAPIError] in this copy: the error code is
    printed only when there is one. *)
Definition GoogleAPIError_Error (e : GoogleAPIError) : string :=
  let errorCodePart :=
    if negb (is_empty (ErrorCode e))
    then " (Error Code: " +:+ ErrorCode e +:+ ")"
    else EmptyString in
  "API request failed with status " +:+ pretty (StatusCode e) +:+ errorCodePart.

(** [err.Error()]. *)
Fixpoint Error (err : error) : string :=
  match err with
  | errorString msg => msg
  | wrapError msg inner => msg +:+ ": " +:+ Error inner
  | apiError e => GoogleAPIError_Error e
  | upstreamError _ text => text
  end.

Definition HandleError (logger : StructuredLogger) (w : ResponseWriter)
    (err : error) : M ResponseWriter :=
  match err with
  | apiError e =>
      (if negb (is_empty (ErrorMessage e)) then
         LogError logger "API request failed"
           [AString "statusCode"; AInt (StatusCode e);
            AString "errorCode"; AString (ErrorCode e);
            AString "errorMessage"; AString (ErrorMessage e)]
       else
         LogError logger "API request failed"
           [AString "statusCode"; AInt (StatusCode e);
            AString "errorCode"; AString (ErrorCode e)]) ;;;
      (if negb (is_empty (Body e)) then
         LogDebug logger "Detailed error response body"
           [AString "body"; AString (Body e)]
       else ret tt) ;;;
      ret (http_Error w "An error occurred while processing your request"
             (StatusCode e))
  | _ =>
      LogError logger "Unknown error type"
        [AString "error"; AString (Error err)] ;;;
      ret (http_Error w "Internal server error" http.StatusInternalServerError)
  end.

End apierrors_documented.

(** ** The test doubles of the repository's tests *)

(** [MockIAMServiceClient] of the package's test: every call returns the
    same signed JWT. *)
Inductive MockIAMServiceClient : Type := mockIAMClient.

#[export] Instance MockIAMServiceClient_signer
    : IAMServiceClient MockIAMServiceClient :=
  {| SignJwt := fun _ _ _ _ => Ok {| SignedJwt := "mocked_signed_jwt" |} |}.

(** The body [{"access_token":"<t>"}] of a successful exchange. *)
Definition tokenBody (t : string) : string :=
  "{" +:+ json_member "access_token" (dquote +:+ t +:+ dquote) +:+ "}".

(** [r.Form.Get(key)]: the first value posted under [key]. *)
Fixpoint Form_Get (data : url_Values) (key : string) : string :=
  match data with
  | [] => EmptyString
  | (k, vs) :: rest =>
      if String.eqb k key then default EmptyString (head vs)
      else Form_Get rest key
  end.

(** The handler of the test server for a POST: a wrong assertion is answered
    with [http.Error(w, ..., http.StatusBadRequest)], the expected one with
    the encoded token and the default status. *)
Definition testServer (data : url_Values) : http.Response :=
  let assertion := Form_Get data "assertion" in
  if String.eqb assertion "mocked_signed_jwt"
  then http.mkResponse 200 (tokenBody "mocked_access_token" +:+ newline)
  else http.mkResponse 400
         ("Expected assertion 'mocked_signed_jwt', got '" +:+ assertion
            +:+ "'" +:+ newline).

(** What [encoding/json] returns on the bodies that occur in the examples
    below; they contain no other JSON value. *)
Definition test_json_Decode (body : string) : result (option string) :=
  if String.eqb body (tokenBody "mocked_access_token" +:+ newline)
  then Ok (Some "mocked_access_token")
  else if String.eqb body (tokenBody "T") then Ok (Some "T")
  else if String.eqb body "{}" then Ok None
  else Err (errorString "invalid character looking for beginning of value").

(** The strings of the examples need no escaping, so their JSON literal is
    the string between quotes. *)
Definition test_json_String (s : string) : string := dquote +:+ s +:+ dquote.

(** The error text of the examples for an [errors.GoogleAPIError]: that of
    the repository's older [APIError]. *)
Definition test_errors_Error (statusCode : Z) (body : string) : string :=
  "API request failed with status " +:+ pretty statusCode +:+ ": " +:+ body.

(** A platform whose token endpoint answers every POST with [answer]. *)
Definition endpointPlatform (answer : url_Values -> http.Response) : Platform :=
  {| json_String := test_json_String;
     json_Decode_access_token := test_json_Decode;
     http_PostForm := fun _ _ data => Ok (answer data);
     errors_GoogleAPIError_Error := test_errors_Error |}.

(** The platform of [TestGenerateGoogleHTTPClient]. *)
Definition testPlatform : Platform := endpointPlatform testServer.

(** [ts.URL]. *)
Definition ts_URL : string := "http://127.0.0.1:8080".

(** The logger of the tests. *)
Definition testLogger : StructuredLogger := NewStructuredLogger "test-component".

(** The clock of the examples: 1700000000 seconds after the epoch. *)
Definition testTime : Time := 1700000000 * Second.

(** The assertion the test signs at that time. *)
Definition testAssertion : string :=
  match createJWTAssertion (P := testPlatform) testTime "test-service-account"
          "test-user@example.com" "test-scope" with
  | Ok payload => payload
  | Err _ => EmptyString
  end.

(** A process that has just created its token cache. *)
Definition freshWorld : World := {| trace := []; cache := NewTokenCache |}.

(** The calls to the signer and to the token endpoint in a trace. *)
Definition isNetworkCall (e : Event) : bool :=
  match e with
  | EvSignJwt _ _ | EvPostForm _ _ => true
  | EvLog _ => false
  end.

Definition networkCalls (tr : list Event) : list Event :=
  List.filter isNetworkCall tr.

(** A status in the 2xx class. *)
Definition is2xx (status : Z) : bool := (200 <=? status) && (status <? 300).

(** A cache hit that hands out a token which is valid, hence not expired,
    at the time of the call. *)
Definition valid_hit (o : Observation) : Prop :=
  obs_found o = true ->
  exists tok : Token,
    obs_token o = Some tok
    /\ Valid tok (obs_time o) = true
    /\ expired tok (obs_time o) = false
    /\ (forall e : Time, Expiry tok = Some e -> obs_time o < e).

(** The clock readings whose Unix seconds are those of a [time.Time]. *)
Definition clock_in_range (now : Time) : Prop :=
  - 2 ^ 63 <= Unix now <= maxUnix.

(** ** Further code of the repository

    The functions around the ones above: the trace context and the levels of
    the structured logger, the read-write-lock version of the token cache,
    the error values of the documented copy of apierrors, and the base
    service client that calls the factory. *)

(** *** Characters and substrings *)

Definition isDigit (c : Ascii.ascii) : bool :=
  let n := Ascii.nat_of_ascii c in (48 <=? n)%nat && (n <=? 57)%nat.

(** The class [[a-f\d]] of the trace context pattern. *)
Definition isHexLower (c : Ascii.ascii) : bool :=
  let n := Ascii.nat_of_ascii c in
  isDigit c || ((97 <=? n)%nat && (n <=? 102)%nat).

(** Every character of [s] satisfies [p]. *)
Fixpoint all_chars (p : Ascii.ascii -> bool) (s : string) : bool :=
  match s with
  | EmptyString => true
  | String c rest => p c && all_chars p rest
  end.

(** The longest prefix of [s] whose characters satisfy [p], and the rest. *)
Fixpoint span (p : Ascii.ascii -> bool) (s : string) : string * string :=
  match s with
  | EmptyString => (EmptyString, EmptyString)
  | String c rest =>
      if p c then let '(taken, remainder) := span p rest in (String c taken, remainder)
      else (EmptyString, s)
  end.

(** [s] without its prefix [pre], when it has that prefix. *)
Fixpoint strip_prefix (pre s : string) : option string :=
  match pre, s with
  | EmptyString, _ => Some s
  | String a pre', String b s' =>
      if Ascii.eqb a b then strip_prefix pre' s' else None
  | String _ _, EmptyString => None
  end.

(** [strings.Contains(s, substr)]. *)
Fixpoint strings_Contains (s substr : string) : bool :=
  match strip_prefix substr s with
  | Some _ => true
  | None =>
      match s with
      | EmptyString => false
      | String _ rest => strings_Contains rest substr
      end
  end.

(** *** package structuredlogger: the trace context of a request *)

(** [deconstructXCloudTraceContext]: the submatches of the pattern
    [^([a-f\d]+)/([a-f\d]+);o=(\d+)$].  Neither separator belongs to the
    class before it, so a match takes the longest run of the class each
    time. *)
Definition deconstructXCloudTraceContext (s : string) : string * string * bool :=
  let noMatch := (EmptyString, EmptyString, false) in
  let '(traceID, afterTrace) := span isHexLower s in
  match strip_prefix "/" afterTrace with
  | None => noMatch
  | Some afterSlash =>
      let '(spanID, afterSpan) := span isHexLower afterSlash in
      match strip_prefix ";o=" afterSpan with
      | None => noMatch
      | Some options =>
          if negb (is_empty traceID) && negb (is_empty spanID)
             && negb (is_empty options) && all_chars isDigit options
          then (traceID, spanID, String.eqb options "1")
          else noMatch
      end
  end.

(** [extractTraceContext(projectID, r)], given the value of the
    [X-Cloud-Trace-Context] header of [r] (empty when [r] has none). *)
Definition extractTraceContext (projectID header : string)
    : string * string * bool :=
  let '(traceID, spanID, traceSampled) := deconstructXCloudTraceContext header in
  let traceID :=
    if negb (is_empty traceID)
    then "projects/" +:+ projectID +:+ "/traces/" +:+ traceID
    else traceID in
  (traceID, spanID, traceSampled).

(** [NewStructuredLogger(projectID, component, r, nil)] for a request [r]
    whose trace header has the value [header]. *)
Definition NewStructuredLogger_request (projectID component header : string)
    : StructuredLogger :=
  let '(traceID, spanID, traceSampled) := extractTraceContext projectID header in
  mkLogger component traceID spanID traceSampled LevelInfo.

(** *** Errors with another body *)

(** The error [err] with the body of every [GoogleAPIError] of apierrors in
    it replaced by [body]. *)
Fixpoint withBody (body : string) (err : error) : error :=
  match err with
  | errorString msg => errorString msg
  | wrapError msg inner => wrapError msg (withBody body inner)
  | apiError e =>
      apiError (mkGoogleAPIError (StatusCode e) body (ErrorCode e) (ErrorMessage e))
  | upstreamError e text => upstreamError e text
  end.

(** *** package googleclient: NewGoogleBaseServiceClient *)

Record GoogleBaseServiceClient : Type := mkGoogleBaseServiceClient {
  httpClient : Client;
  baseEndpoint : string;
  logger_of : StructuredLogger
}.

Definition StatusNotFound : Z := 404.

(** [NewGoogleBaseServiceClient].  The factory it calls is the one that takes
    the token cache, which is not among the sources; [generate] stands for
    that call. *)
Definition NewGoogleBaseServiceClient (generate : M (result Client))
    (logger : StructuredLogger) (targetServiceAccount baseEndpoint : string)
    : M (result GoogleBaseServiceClient) :=
  r <- generate ;;
  match r with
  | Err err =>
      if strings_Contains (Error err) "Gaia id not found for email" then
        let apiErr :=
          {| StatusCode := StatusNotFound;
             Body := "Gaia ID not found for email " +:+ targetServiceAccount
                       +:+ ": " +:+ Error err;
             ErrorCode := "1000";
             ErrorMessage := "Gaia ID not found for email "
                               +:+ targetServiceAccount |} in
        LogError logger (GoogleAPIError_Error apiErr)
          [AString "email"; AString targetServiceAccount] ;;;
        ret (Err (apiError apiErr))
      else
        let apiErr :=
          {| StatusCode := http.StatusInternalServerError;
             Body := "Error generating HTTP client: " +:+ Error err;
             ErrorCode := EmptyString;
             ErrorMessage := EmptyString |} in
        LogError logger (GoogleAPIError_Error apiErr)
          [AString "error"; AError err] ;;;
        ret (Err (apiError apiErr))
  | Ok httpClient =>
      ret (Ok {| httpClient := httpClient;
                 baseEndpoint := baseEndpoint;
                 logger_of := logger |})
  end.

(** *** package serviceaccount: the token cache with the read-write lock

    The first version of token_cache.go hashes the key and guards the map
    with a [sync.RWMutex]. *)
Module tokencache_rwmutex.

(** A [sync.RWMutex]: how many read locks are held, and whether the write
    lock is. *)
Record RWMutex : Type := mkRWMutex { readers : nat; writer : bool }.

(** A call that has to wait for a lock has no result in this model. *)
Inductive outcome (A : Type) : Type :=
| Returns (a : A)
| Blocked.

Arguments Returns {A} a.
Arguments Blocked {A}.

(** [mu.RLock()] is granted unless the write lock is held. *)
Definition RLock (mu : RWMutex) : option RWMutex :=
  if writer mu then None else Some (mkRWMutex (S (readers mu)) false).

Definition RUnlock (mu : RWMutex) : RWMutex :=
  mkRWMutex (Nat.pred (readers mu)) (writer mu).

(** [mu.Lock()] is granted when no lock of either kind is held. *)
Definition Lock (mu : RWMutex) : option RWMutex :=
  if writer mu || negb (readers mu =? 0)%nat then None
  else Some (mkRWMutex 0 true).

Definition Unlock (mu : RWMutex) : RWMutex := mkRWMutex (readers mu) false.

Record TokenCache : Type := mkTokenCache {
  mu : RWMutex;
  tokens : gmap string (option Token)
}.

Definition NewTokenCache : TokenCache :=
  {| mu := mkRWMutex 0 false; tokens := ∅ |}.

(** [hash/fnv]: the 64-bit FNV-1a hash. *)
Definition offset64 : Z := 14695981039346656037.
Definition prime64 : Z := 1099511628211.

Fixpoint fnv64a_Write (hash : Z) (data : string) : Z :=
  match data with
  | EmptyString => hash
  | String c rest =>
      fnv64a_Write
        ((Z.lxor hash (Z.of_N (Ascii.N_of_ascii c)) * prime64) `mod` 2 ^ 64) rest
  end.

Definition hexDigit (d : Z) : Ascii.ascii :=
  match String.get (Z.to_nat d) "0123456789abcdef" with
  | Some c => c
  | None => Ascii.zero
  end.

Fixpoint hex_go (fuel : nat) (z : Z) (acc : string) : string :=
  match fuel with
  | O => acc
  | S fuel' =>
      if z =? 0 then acc
      else hex_go fuel' (z `div` 16) (String (hexDigit (z `mod` 16)) acc)
  end.

(** [fmt.Sprintf("%x", v)] for a [uint64]. *)
Definition format_x (v : Z) : string :=
  if v =? 0 then "0" else hex_go 16 v EmptyString.

(** [getKey]: the hash of the joined key, in hexadecimal. *)
Definition getKey (userEmail : string) (scopes : list string) : string :=
  let key := userEmail +:+ "|" +:+ strings_Join scopes "," in
  format_x (fnv64a_Write offset64 key).

(** [token.Valid()] on a pointer that may be nil. *)
Definition Valid_ptr (token : option Token) (now : Time) : bool :=
  match token with
  | None => false
  | Some t => Valid t now
  end.

(** [GetToken]: the read lock is released by the deferred [RUnlock] when the
    function returns; the write lock for the removal is requested while the
    read lock is still held. *)
Definition GetToken (c : TokenCache) (now : Time)
    (userEmail : string) (scopes : list string)
    : outcome ((option Token * bool) * TokenCache) :=
  match RLock (mu c) with
  | None => Blocked
  | Some held =>
      let key := getKey userEmail scopes in
      match tokens c !! key with
      | None =>
          Returns ((None, false), {| mu := RUnlock held; tokens := tokens c |})
      | Some token =>
          if negb (Valid_ptr token now) then
            match Lock held with
            | None => Blocked
            | Some locked =>
                Returns ((None, false),
                         {| mu := RUnlock (Unlock locked);
                            tokens := delete key (tokens c) |})
            end
          else
            Returns ((token, true), {| mu := RUnlock held; tokens := tokens c |})
      end
  end.

(** [SetToken]. *)
Definition SetToken (c : TokenCache)
    (userEmail : string) (scopes : list string) (token : option Token)
    : outcome TokenCache :=
  match Lock (mu c) with
  | None => Blocked
  | Some locked =>
      let key := getKey userEmail scopes in
      Returns {| mu := Unlock locked; tokens := <[key := token]> (tokens c) |}
  end.

End tokencache_rwmutex.

(** *** A signer that refuses *)

(** An [IAMServiceClient] whose [SignJwt] fails with the error it was made
    with, as the real one does for an unknown service account. *)
Inductive RefusingIAMServiceClient : Type :=
| refusingIAMClient (reason : string).

#[export] Instance RefusingIAMServiceClient_signer
    : IAMServiceClient RefusingIAMServiceClient :=
  {| SignJwt := fun client _ _ _ =>
       match client with
       | refusingIAMClient reason => Err (errorString reason)
       end |}.

(** *** package googleserviceaccount: the assertion built with Sprintf

    The first version of the package formats the assertion itself. *)
Module serviceaccount_sprintf.

Definition tab : string :=
  String (Ascii.Ascii true false false true false false false false) EmptyString.

(** The start of a line of the template: a newline and two tabs. *)
Definition line : string := newline +:+ tab +:+ tab.

(** What stands between two string values of the template: the closing
    quote and comma, the next line, and the key with its opening quote. *)
Definition next_string (key : string) : string :=
  dquote +:+ "," +:+ line +:+ dquote +:+ key +:+ dquote +:+ ": " +:+ dquote.

(** What stands between two values where the next is a number. *)
Definition next_number (key : string) : string :=
  "," +:+ line +:+ dquote +:+ key +:+ dquote +:+ ": ".

(** [createJWTAssertion]: the inputs are copied into the template as they
    are. *)
Definition createJWTAssertion (now : Time)
    (targetServiceAccount userEmail scopes : string) : result string :=
  if is_empty targetServiceAccount || is_empty userEmail || is_empty scopes
  then Err validationError
  else
    let now := Unix now in
    Ok ("{" +:+ line +:+ dquote +:+ "iss" +:+ dquote +:+ ": " +:+ dquote
        +:+ targetServiceAccount
        +:+ next_string "sub" +:+ userEmail
        +:+ next_string "scope" +:+ scopes
        +:+ next_string "aud" +:+ "https://oauth2.googleapis.com/token"
        +:+ dquote +:+ next_number "iat" +:+ pretty now
        +:+ next_number "exp" +:+ pretty (wrap64 (now + 3600))
        +:+ newline +:+ tab +:+ "}").

End serviceaccount_sprintf.

(** *** package googleclient: the requests of the base service client *)

(** An [*http.Request] as the code fills it in; the header map is the one
    the code sets, before net/http spells its keys canonically. *)
Record Request : Type := mkRequest {
  Method : string;
  URL : string;
  Header : gmap string string;
  RequestBody : string
}.

(** The library and network functions behind the requests. *)
Class Transport : Type := {
  (** [params.Encode()]. *)
  url_Values_Encode : url_Values -> string;
  (** The error of [http.NewRequestWithContext(ctx, method, url, body)], if
      any. *)
  http_NewRequest : string -> string -> option error;
  (** [c.httpClient.Do(req)]. *)
  http_Do : list Event -> Request -> result http.Response
}.

(** [tokenSource.Token()] for the static token source of the client. *)
Definition StaticTokenSource_Token (c : Client) : result Token := Ok (Source c).

(** The text of the error for an answer that is not accepted. *)
Definition requestFailed (resp : http.Response) : error :=
  errorString ("API request failed with status " +:+ pretty (http.StatusCode resp)
                 +:+ ": " +:+ http.Body resp).

(** The URL and the request of [MakeRequest]. *)
Definition getURL {N : Transport} (c : GoogleBaseServiceClient)
    (endpoint : string) (params : url_Values) : string :=
  baseEndpoint c +:+ "/" +:+ endpoint +:+ "?" +:+ url_Values_Encode params.

Definition getRequest {N : Transport} (c : GoogleBaseServiceClient)
    (endpoint : string) (params : url_Values) (token : Token) : Request :=
  {| Method := "GET";
     URL := getURL c endpoint params;
     Header := <["Content-Type" := "application/json"]>
                 (<["Authorization" := "Bearer " +:+ AccessToken token]> ∅);
     RequestBody := EmptyString |}.

(** [MakeRequest]: GET. *)
Definition MakeRequest {N : Transport} (c : GoogleBaseServiceClient)
    (endpoint : string) (params : url_Values) : M (result string) :=
  let reqURL := getURL c endpoint params in
  match http_NewRequest "GET" reqURL with
  | Some err =>
      LogError (logger_of c) "error creating request"
        [AString "error"; AError err] ;;;
      ret (Err (wrapError "error creating request" err))
  | None =>
      (* Extract the token from the HTTP client's transport *)
      match StaticTokenSource_Token (httpClient c) with
      | Err err =>
          LogError (logger_of c) "error getting token"
            [AString "error"; AError err] ;;;
          ret (Err (wrapError "error getting token" err))
      | Ok token =>
          (* Set the Authorization header with the Bearer token *)
          let req := getRequest c endpoint params token in
          h <- history ;;
          match http_Do h req with
          | Err err =>
              LogError (logger_of c) "error making API call"
                [AString "error"; AError err] ;;;
              ret (Err (wrapError "error making API call" err))
          | Ok resp =>
              if negb (http.StatusCode resp =? http.StatusOK) then
                LogError (logger_of c) "API request failed"
                  [AString "status_code"; AInt (http.StatusCode resp);
                   AString "body"; AString (http.Body resp)] ;;;
                ret (Err (requestFailed resp))
              else ret (Ok (http.Body resp))
          end
      end
  end.

(** The request of [MakePostRequest]. *)
Definition postRequest (c : GoogleBaseServiceClient) (endpoint : string)
    (headers : gmap string string) (body : string) : Request :=
  {| Method := "POST";
     URL := baseEndpoint c +:+ "/" +:+ endpoint;
     Header := headers;
     RequestBody := body |}.

(** [MakePostRequest]: POST with the headers of the caller. *)
Definition MakePostRequest {N : Transport} (c : GoogleBaseServiceClient)
    (endpoint : string) (headers : gmap string string) (body : string)
    : M (result string) :=
  let reqURL := baseEndpoint c +:+ "/" +:+ endpoint in
  match http_NewRequest "POST" reqURL with
  | Some err =>
      LogError (logger_of c) "error creating POST request"
        [AString "error"; AError err] ;;;
      ret (Err (wrapError "error creating POST request" err))
  | None =>
      let req := postRequest c endpoint headers body in
      h <- history ;;
      match http_Do h req with
      | Err err =>
          LogError (logger_of c) "error making API call"
            [AString "error"; AError err] ;;;
          ret (Err (wrapError "error making API call" err))
      | Ok resp =>
          if (http.StatusCode resp <? 200) || (300 <=? http.StatusCode resp) then
            LogError (logger_of c) "API request failed"
              [AString "status_code"; AInt (http.StatusCode resp);
               AString "body"; AString (http.Body resp)] ;;;
            ret (Err (requestFailed resp))
          else ret (Ok (http.Body resp))
      end
  end.

(** A transport whose server answers every request with [answer]; the
    examples pass no parameters, which encode as the empty string. *)
Definition answeringTransport (answer : http.Response) : Transport :=
  {| url_Values_Encode := fun _ => EmptyString;
     http_NewRequest := fun _ _ => None;
     http_Do := fun _ _ => Ok answer |}.

(** A base service client around the client of the test. *)
Definition testBaseClient : GoogleBaseServiceClient :=
  {| httpClient := mkClient (mkToken "mocked_access_token" None);
     baseEndpoint := ts_URL;
     logger_of := testLogger |}.

(** *** Predicates of the statements below *)

(** A character that is not [sep]. *)
Definition differs (sep : Ascii.ascii) (c : Ascii.ascii) : bool :=
  negb (Ascii.eqb c sep).

Definition pipe : Ascii.ascii := Ascii.Ascii false false true true true true true false.
Definition comma : Ascii.ascii := Ascii.Ascii false false true true false true false false.
Definition slash : Ascii.ascii := Ascii.Ascii true true true true false true false false.
Definition semicolon : Ascii.ascii := Ascii.Ascii true true false true true true false false.

(** A scope that is not empty and has no comma. *)
Definition plain_scope (scope : string) : bool :=
  negb (is_empty scope) && all_chars (differs comma) scope.

(** What follows an element in a joined string: nothing, or the separator
    and more. *)
Definition join_tail (t : string) : Prop :=
  t = EmptyString \/ exists t' : string, t = String comma t'.

(** The arguments of [Log] for a list of keys and values. *)
Definition keyvals (kvs : list (string * any)) : list any :=
  concat (List.map (fun kv => [AString (fst kv); snd kv]) kvs).

(** A trace header made of a trace, a span and the options. *)
Definition traceHeader (traceID spanID options : string) : string :=
  traceID +:+ "/" +:+ spanID +:+ ";o=" +:+ options.

(** The parts of a header the pattern accepts. *)
Definition trace_parts (traceID spanID options : string) : Prop :=
  traceID <> EmptyString /\ all_chars isHexLower traceID = true
  /\ spanID <> EmptyString /\ all_chars isHexLower spanID = true
  /\ options <> EmptyString /\ all_chars isDigit options = true.

(** * Properties *)

(** ** Strings and keys *)

Lemma append_cancel_l (p a b : string) : p +:+ a = p +:+ b -> a = b.
Proof.
  induction p as [|ch p IH]; simpl; [done|].
  intros [= Heq]. by apply IH.
Qed.

Lemma is_empty_true (s : string) : is_empty s = true <-> s = EmptyString.
Proof. destruct s; simpl; split; congruence. Qed.

Lemma is_empty_false (s : string) : is_empty s = false <-> s <> EmptyString.
Proof. destruct s; simpl; split; congruence. Qed.

(** Two scope lists of one identity share a key exactly when their
    comma-joins coincide. *)
Lemma getKey_eq_iff (userEmail : string) (s1 s2 : list string) :
  getKey userEmail s1 = getKey userEmail s2
  <-> strings_Join s1 "," = strings_Join s2 ",".
Proof.
  unfold getKey. split.
  - intros Heq. apply append_cancel_l in Heq. by apply append_cancel_l in Heq.
  - by intros ->.
Qed.

(** ** Validity of tokens *)

Lemma Valid_iff (tok : Token) (now : Time) :
  Valid tok now = true
  <-> AccessToken tok <> EmptyString
      /\ (forall e : Time, Expiry tok = Some e -> now + expiryDelta <= e).
Proof.
  unfold Valid, expired. rewrite andb_true_iff, !negb_true_iff, is_empty_false.
  destruct (Expiry tok) as [e|]; split; intros [Hne Hexp]; split; try done.
  - intros e' [= <-]. apply Z.ltb_ge in Hexp. lia.
  - apply Z.ltb_ge. specialize (Hexp e eq_refl). lia.
Qed.

Lemma Valid_not_expired (tok : Token) (now : Time) :
  Valid tok now = true ->
  expired tok now = false /\ (forall e : Time, Expiry tok = Some e -> now < e).
Proof.
  intros Hv. split.
  - unfold Valid in Hv. apply andb_true_iff in Hv as [_ Hv].
    by apply negb_true_iff in Hv.
  - apply Valid_iff in Hv as [_ Hexp]. intros e He.
    specialize (Hexp e He). unfold expiryDelta, Second in Hexp. lia.
Qed.

Lemma past_expiry_invalid (tok : Token) (now e : Time) :
  Expiry tok = Some e -> e < now -> Valid tok now = false.
Proof.
  intros He Hlt. unfold Valid, expired. rewrite He.
  assert ((e - expiryDelta <? now) = true) as ->.
  { apply Z.ltb_lt. unfold expiryDelta, Second. lia. }
  by rewrite andb_false_r.
Qed.

(** ** One step of the cache *)

Section CacheSteps.
Context (c : TokenCache) (now : Time).
Context (userEmail : string) (scopes : list string).

Lemma GetToken_miss :
  tokens c !! getKey userEmail scopes = None ->
  GetToken c now userEmail scopes = ((None, false), c).
Proof. unfold GetToken. by intros ->. Qed.

Lemma GetToken_nil :
  tokens c !! getKey userEmail scopes = Some None ->
  GetToken c now userEmail scopes = ((None, false), c).
Proof. unfold GetToken. by intros ->. Qed.

Lemma GetToken_hit (tok : Token) :
  tokens c !! getKey userEmail scopes = Some (Some tok) ->
  Valid tok now = true ->
  GetToken c now userEmail scopes = ((Some tok, true), c).
Proof. unfold GetToken. by intros -> ->. Qed.

Lemma GetToken_evict (tok : Token) :
  tokens c !! getKey userEmail scopes = Some (Some tok) ->
  Valid tok now = false ->
  GetToken c now userEmail scopes
  = ((None, false), {| tokens := delete (getKey userEmail scopes) (tokens c) |}).
Proof. unfold GetToken. by intros -> ->. Qed.

(** A hit is always the stored token, and it passed the validity check. *)
Lemma GetToken_found_inv (r : option Token) (c' : TokenCache) :
  GetToken c now userEmail scopes = ((r, true), c') ->
  exists tok : Token,
    r = Some tok
    /\ tokens c !! getKey userEmail scopes = Some (Some tok)
    /\ Valid tok now = true
    /\ c' = c.
Proof.
  unfold GetToken.
  destruct (tokens c !! getKey userEmail scopes) as [[tok|]|] eqn:Hlook;
    try discriminate.
  destruct (Valid tok now) eqn:Hv; simpl; [|discriminate].
  intros [= <- <-]. by exists tok.
Qed.

(** What [SetToken] stored is what a lookup under an equal key reads. *)
Lemma lookup_SetToken_same (u2 : string) (s2 : list string) (t : option Token) :
  getKey u2 s2 = getKey userEmail scopes ->
  tokens (SetToken c u2 s2 t) !! getKey userEmail scopes = Some t.
Proof. intros Hk. unfold SetToken; simpl. rewrite Hk. apply lookup_insert_eq. Qed.

Lemma lookup_SetToken_other (u2 : string) (s2 : list string) (t : option Token) :
  getKey u2 s2 <> getKey userEmail scopes ->
  tokens (SetToken c u2 s2 t) !! getKey userEmail scopes
  = tokens c !! getKey userEmail scopes.
Proof. intros Hk. unfold SetToken; simpl. by apply lookup_insert_ne. Qed.

(** A [SetToken] under another key does not change what [GetToken]
    returns. *)
Lemma GetToken_SetToken_other (u2 : string) (s2 : list string) (t : option Token) :
  getKey u2 s2 <> getKey userEmail scopes ->
  fst (GetToken (SetToken c u2 s2 t) now userEmail scopes)
  = fst (GetToken c now userEmail scopes).
Proof.
  intros Hk. unfold GetToken. rewrite (lookup_SetToken_other _ _ _ Hk).
  destruct (tokens c !! getKey userEmail scopes) as [[tok|]|]; try done.
  by destruct (Valid tok now).
Qed.

End CacheSteps.

(** ** The token cache *)

(** C2, as the code has it.  The key keeps the order of the scopes: a lookup
    after [SetToken] returns the stored valid token when the comma-joins of
    the two scope lists are equal, and otherwise returns what it would have
    returned without that [SetToken]. *)
Theorem C2_key_follows_join (c : TokenCache) (now : Time) (identity : string)
    (s1 s2 : list string) (tok : Token) :
  Valid tok now = true ->
  (strings_Join s1 "," = strings_Join s2 "," ->
   fst (GetToken (SetToken c identity s2 (Some tok)) now identity s1)
   = (Some tok, true))
  /\ (strings_Join s1 "," <> strings_Join s2 "," ->
      fst (GetToken (SetToken c identity s2 (Some tok)) now identity s1)
      = fst (GetToken c now identity s1)).
Proof.
  intros Hv. split; intros Hjoin.
  - apply getKey_eq_iff with (userEmail := identity) in Hjoin.
    erewrite GetToken_hit; [done| |done].
    by apply lookup_SetToken_same.
  - apply GetToken_SetToken_other.
    intros Hk. apply Hjoin. symmetry. by apply getKey_eq_iff in Hk.
Qed.

Lemma C2_key_follows_join_witness :
  Valid (mkToken "t" None) 0 = true
  /\ fst (GetToken (SetToken NewTokenCache "id" ["a"; "b"] (Some (mkToken "t" None)))
            0 "id" ["a"; "b"])
     = (Some (mkToken "t" None), true).
Proof.
  split; [reflexivity|].
  apply (C2_key_follows_join NewTokenCache 0 "id" ["a"; "b"] ["a"; "b"]
           (mkToken "t" None)); reflexivity.
Defined.

(** C2, as stated, fails: on a new cache the token stored for the scopes
    b, a is not found under a, b. *)
Lemma C2_order_matters :
  Valid (mkToken "t" None) 0 = true
  /\ fst (GetToken (SetToken NewTokenCache "id" ["b"; "a"] (Some (mkToken "t" None)))
            0 "id" ["a"; "b"])
     = (None, false).
Proof. split; reflexivity. Qed.

(** C3, as the code has it.  A token that [Valid] accepts at the time of the
    lookup -- its access token is not empty and its expiry, if it has one,
    is at least [expiryDelta] away -- is returned by the [GetToken] that
    follows its [SetToken], and the cache keeps it. *)
Theorem C3_set_then_get (c : TokenCache) (now : Time) (identity : string)
    (scopes : list string) (tok : Token) :
  AccessToken tok <> EmptyString ->
  (forall e : Time, Expiry tok = Some e -> now + expiryDelta <= e) ->
  GetToken (SetToken c identity scopes (Some tok)) now identity scopes
  = ((Some tok, true), SetToken c identity scopes (Some tok)).
Proof.
  intros Hne Hexp. apply GetToken_hit.
  - by apply lookup_SetToken_same.
  - by apply Valid_iff.
Qed.

Lemma C3_set_then_get_witness :
  GetToken (SetToken NewTokenCache "test@example.com" ["scope1"; "scope2"]
              (Some (mkToken "test-access-token" (Some Hour))))
    0 "test@example.com" ["scope1"; "scope2"]
  = ((Some (mkToken "test-access-token" (Some Hour)), true),
     SetToken NewTokenCache "test@example.com" ["scope1"; "scope2"]
       (Some (mkToken "test-access-token" (Some Hour)))).
Proof.
  apply (C3_set_then_get NewTokenCache 0 "test@example.com"
           ["scope1"; "scope2"] (mkToken "test-access-token" (Some Hour))).
  - simpl. discriminate.
  - intros e [= <-]. vm_compute. discriminate.
Defined.

(** C3, as stated, fails: an expiry in the future is not enough.  A token
    without access token, and a token that expires in five seconds, are both
    evicted by the lookup that follows their [SetToken]. *)
Lemma C3_future_expiry_not_enough :
  (0 < Hour
   /\ fst (GetToken (SetToken NewTokenCache "id" ["s"]
                       (Some (mkToken EmptyString (Some Hour))))
             0 "id" ["s"])
      = (None, false))
  /\ (0 < 5 * Second
      /\ fst (GetToken (SetToken NewTokenCache "id" ["s"]
                          (Some (mkToken "t" (Some (5 * Second)))))
                0 "id" ["s"])
         = (None, false)).
Proof. repeat split. Qed.

(** C4.  A lookup that finds a token whose expiry is in the past returns
    no token and [false], removes the entry, and every later lookup of the
    key misses as well. *)
Theorem C4_lazy_eviction (c : TokenCache) (now : Time) (identity : string)
    (scopes : list string) (tok : Token) (e : Time) :
  tokens c !! getKey identity scopes = Some (Some tok) ->
  Expiry tok = Some e ->
  e < now ->
  let c' := snd (GetToken c now identity scopes) in
  fst (GetToken c now identity scopes) = (None, false)
  /\ tokens c' !! getKey identity scopes = None
  /\ (forall later : Time,
        GetToken c' later identity scopes = ((None, false), c')).
Proof.
  intros Hlook He Hpast c'.
  assert (GetToken c now identity scopes
          = ((None, false),
             {| tokens := delete (getKey identity scopes) (tokens c) |}))
    as Hget.
  { apply (GetToken_evict _ _ _ _ tok); [done|].
    by apply (past_expiry_invalid tok now e). }
  subst c'. rewrite Hget. simpl.
  assert (delete (getKey identity scopes) (tokens c)
            !! getKey identity scopes = None) as Hgone
    by apply lookup_delete_eq.
  repeat split; [done|].
  intros later. by apply GetToken_miss.
Qed.

Lemma C4_lazy_eviction_witness :
  let c := SetToken NewTokenCache "test@example.com" ["scope1"; "scope2"]
             (Some (mkToken "expired-access-token" (Some 0))) in
  let c' := snd (GetToken c Hour "test@example.com" ["scope1"; "scope2"]) in
  fst (GetToken c Hour "test@example.com" ["scope1"; "scope2"]) = (None, false)
  /\ tokens c' !! getKey "test@example.com" ["scope1"; "scope2"] = None
  /\ (forall later : Time,
        GetToken c' later "test@example.com" ["scope1"; "scope2"]
        = ((None, false), c')).
Proof.
  apply (C4_lazy_eviction
           (SetToken NewTokenCache "test@example.com" ["scope1"; "scope2"]
              (Some (mkToken "expired-access-token" (Some 0))))
           Hour "test@example.com" ["scope1"; "scope2"]
           (mkToken "expired-access-token" (Some 0)) 0).
  - reflexivity.
  - reflexivity.
  - reflexivity.
Defined.

(** Every observation of a run is a miss or a valid hit. *)
Lemma run_valid_hits (ops : list (Time * CacheOp)) :
  forall c : TokenCache, Forall valid_hit (fst (run c ops)).
Proof.
  induction ops as [|[now op] ops IH]; intros c; simpl.
  - constructor.
  - destruct op as [u s t|u s].
    + apply IH.
    + destruct (GetToken c now u s) as [[r found] c1] eqn:Hget.
      specialize (IH c1). destruct (run c1 ops) as [obs c2]. simpl in *.
      constructor; [|done].
      intros Hfound. simpl in Hfound. subst found.
      apply GetToken_found_inv in Hget as (tok & -> & _ & Hv & _).
      exists tok. simpl.
      destruct (Valid_not_expired tok now Hv) as [Hexp Hlt]. done.
Qed.

(** C5.  Whenever [GetToken] reports a hit, the token it returns is valid
    at the time of the call, and so not expired; and in every sequence of
    [SetToken] and [GetToken] calls, started from any cache, each hit a
    caller observes is such a valid token. *)
Theorem C5_hits_are_valid :
  (forall (c c' : TokenCache) (now : Time) (identity : string)
          (scopes : list string) (r : option Token),
      GetToken c now identity scopes = ((r, true), c') ->
      exists tok : Token,
        r = Some tok
        /\ Valid tok now = true
        /\ expired tok now = false
        /\ (forall e : Time, Expiry tok = Some e -> now < e))
  /\ (forall (c : TokenCache) (ops : list (Time * CacheOp)),
        Forall valid_hit (fst (run c ops))).
Proof.
  split.
  - intros c c' now identity scopes r Hget.
    apply GetToken_found_inv in Hget as (tok & -> & _ & Hv & _).
    exists tok. destruct (Valid_not_expired tok now Hv). done.
  - intros c ops. apply run_valid_hits.
Qed.

(** C10.  The scope lists with the single scope a,b and with the two scopes
    a and b are different, have the same key, and so share a cache entry:
    the token stored for the first is a hit for the second. *)
Theorem C10_comma_collision (c : TokenCache) (now : Time) (identity : string)
    (tok : Token) :
  Valid tok now = true ->
  ["a,b"] <> ["a"; "b"]
  /\ getKey identity ["a,b"] = getKey identity ["a"; "b"]
  /\ fst (GetToken (SetToken c identity ["a,b"] (Some tok)) now identity ["a"; "b"])
     = (Some tok, true).
Proof.
  intros Hv. split; [discriminate|]. split; [reflexivity|].
  erewrite GetToken_hit; [done| |done].
  by apply lookup_SetToken_same.
Qed.

Lemma C10_comma_collision_witness :
  Valid (mkToken "t" (Some Hour)) 0 = true
  /\ ["a,b"] <> ["a"; "b"]
  /\ getKey "id" ["a,b"] = getKey "id" ["a"; "b"]
  /\ fst (GetToken (SetToken NewTokenCache "id" ["a,b"]
                      (Some (mkToken "t" (Some Hour))))
            0 "id" ["a"; "b"])
     = (Some (mkToken "t" (Some Hour)), true).
Proof.
  split; [reflexivity|].
  apply (C10_comma_collision NewTokenCache 0 "id" (mkToken "t" (Some Hour))).
  reflexivity.
Defined.

(** ** The assertion *)

Lemma wrap64_small (z : Z) : - 2 ^ 63 <= z < 2 ^ 63 -> wrap64 z = z.
Proof. intros Hz. unfold wrap64. rewrite Z.mod_small; lia. Qed.

Section Assertion.
Context {P : Platform}.

Lemma createJWTAssertion_invalid (now : Time) (sa user scopes : string) :
  sa = EmptyString \/ user = EmptyString \/ scopes = EmptyString ->
  createJWTAssertion now sa user scopes = Err validationError.
Proof.
  unfold createJWTAssertion.
  intros [-> | [-> | ->]]; simpl; [done| |].
  - by rewrite orb_true_r.
  - by rewrite orb_true_r.
Qed.

Lemma createJWTAssertion_valid (now : Time) (sa user scopes : string) :
  sa <> EmptyString -> user <> EmptyString -> scopes <> EmptyString ->
  createJWTAssertion now sa user scopes
  = json_Marshal (jwtPayload now sa user scopes).
Proof.
  intros Hsa Huser Hscopes. unfold createJWTAssertion.
  apply is_empty_false in Hsa, Huser, Hscopes.
  rewrite Hsa, Huser, Hscopes. simpl. done.
Qed.

Lemma createJWTAssertion_Ok_inv (now : Time) (sa user scopes payload : string) :
  createJWTAssertion now sa user scopes = Ok payload ->
  (sa <> EmptyString /\ user <> EmptyString /\ scopes <> EmptyString)
  /\ json_Marshal (jwtPayload now sa user scopes) = Ok payload.
Proof.
  unfold createJWTAssertion.
  destruct (is_empty sa) eqn:Hsa; [discriminate|].
  destruct (is_empty user) eqn:Huser; [discriminate|].
  destruct (is_empty scopes) eqn:Hscopes; [discriminate|].
  simpl. intros Heq. by rewrite <- !is_empty_false.
Qed.

End Assertion.

(** C6.  [createJWTAssertion] returns its validation error whenever the
    service account, the user email or the scopes are the empty string, as
    in the three calls the specification lists, and it returns a payload
    when all three are given. *)
Theorem C6_validation (P : Platform) (now : Time) (sa user scopes : string) :
  (createJWTAssertion now sa user scopes = Err validationError
   <-> sa = EmptyString \/ user = EmptyString \/ scopes = EmptyString)
  /\ ((exists payload : string, createJWTAssertion now sa user scopes = Ok payload)
      <-> sa <> EmptyString /\ user <> EmptyString /\ scopes <> EmptyString)
  /\ createJWTAssertion now EmptyString "user" "scope" = Err validationError
  /\ createJWTAssertion now "sa" EmptyString "scope" = Err validationError
  /\ createJWTAssertion now "sa" "user" EmptyString = Err validationError.
Proof.
  split; [|split; [|by repeat split]].
  - split; [|apply createJWTAssertion_invalid].
    intros Herr.
    destruct sa; [by left|]. destruct user; [by right; left|].
    destruct scopes; [by right; right|].
    rewrite createJWTAssertion_valid in Herr by done. discriminate.
  - split.
    + intros [payload Hok]. by apply createJWTAssertion_Ok_inv in Hok as [? _].
    + intros (Hsa & Huser & Hscopes).
      rewrite createJWTAssertion_valid by done. by eexists.
Qed.

(** C7.  The payload of a successful [createJWTAssertion] is the JSON of a
    claim set whose [iat] is the current Unix time, whose [exp] is [iat] plus
    3600 seconds, and whose [aud] is the fixed token endpoint; issuer,
    subject and scope are the three inputs.  The function has no parameter
    that could override the audience. *)
Theorem C7_assertion_contents (P : Platform) (now : Time)
    (sa user scopes payload : string) :
  clock_in_range now ->
  createJWTAssertion now sa user scopes = Ok payload ->
  exists claims : JWTClaims,
    json_Marshal claims = Ok payload
    /\ Iss claims = sa /\ Sub claims = user /\ Scope claims = scopes
    /\ Iat claims = Unix now
    /\ Exp claims = Iat claims + 3600
    /\ Aud claims = tokenEndpoint.
Proof.
  intros [Hlo Hhi] Hok.
  apply createJWTAssertion_Ok_inv in Hok as [_ Hjson].
  exists (jwtPayload now sa user scopes). repeat split; try done.
  simpl. apply wrap64_small. unfold maxUnix in Hhi. lia.
Qed.

Lemma C7_assertion_contents_witness :
  clock_in_range testTime
  /\ exists claims : JWTClaims,
       json_Marshal (P := testPlatform) claims = Ok testAssertion
       /\ Iss claims = "test-service-account"
       /\ Sub claims = "test-user@example.com"
       /\ Scope claims = "test-scope"
       /\ Iat claims = Unix testTime
       /\ Exp claims = Iat claims + 3600
       /\ Aud claims = tokenEndpoint.
Proof.
  assert (clock_in_range testTime) as Hclock
    by (vm_compute; split; discriminate).
  split; [exact Hclock|].
  apply (C7_assertion_contents testPlatform testTime "test-service-account"
           "test-user@example.com" "test-scope" testAssertion Hclock).
  reflexivity.
Defined.

(** ** The exchange *)

Section Exchange.
Context {P : Platform}.
Context (logger : StructuredLogger) (tokenUrl signedJwt : string) (w : World).

(** The answer of the token endpoint to the post of this call. *)
Let answer : result http.Response :=
  http_PostForm (trace w) tokenUrl (grantForm signedJwt).

Lemma getAccessToken_post_failed (err : error) :
  answer = Err err ->
  fst (getAccessToken logger tokenUrl signedJwt w)
  = Err (wrapError "error posting to token endpoint" err).
Proof.
  subst answer. unfold getAccessToken, call_PostForm, bind, history, emit, ret.
  simpl. by intros ->.
Qed.

Lemma getAccessToken_not_OK (resp : http.Response) :
  answer = Ok resp ->
  http.StatusCode resp <> http.StatusOK ->
  fst (getAccessToken logger tokenUrl signedJwt w)
  = Err (upstreamError
           (google_errors.mkGoogleAPIError (http.StatusCode resp) (http.Body resp))
           (errors_GoogleAPIError_Error (http.StatusCode resp) (http.Body resp))).
Proof.
  subst answer. unfold getAccessToken, call_PostForm, bind, history, emit, ret.
  simpl. intros -> Hstatus. apply Z.eqb_neq in Hstatus. by rewrite Hstatus.
Qed.

Lemma getAccessToken_OK (resp : http.Response) :
  answer = Ok resp ->
  http.StatusCode resp = http.StatusOK ->
  getAccessToken logger tokenUrl signedJwt w
  = match json_Decode_access_token (http.Body resp) with
    | Err err =>
        (Err (wrapError "error unmarshaling token response" err),
         {| trace := (trace w ++ [EvPostForm tokenUrl (grantForm signedJwt)])
                     ++ (EvLog <$> Log logger LevelError
                                     "Error decoding access token response"
                                     [AString "error"; AError err]);
            cache := cache w |})
    | Ok field =>
        (Ok (default EmptyString field),
         {| trace := trace w ++ [EvPostForm tokenUrl (grantForm signedJwt)];
            cache := cache w |})
    end.
Proof.
  subst answer. unfold getAccessToken, call_PostForm, bind, history, emit, ret.
  simpl. intros -> Hstatus. apply Z.eqb_eq in Hstatus. rewrite Hstatus. simpl.
  by destruct (json_Decode_access_token (http.Body resp)).
Qed.

(** [getAccessToken] never writes the cache. *)
Lemma getAccessToken_cache :
  cache (snd (getAccessToken logger tokenUrl signedJwt w)) = cache w.
Proof.
  unfold getAccessToken, call_PostForm, bind, history, emit, ret. simpl.
  destruct (http_PostForm (trace w) tokenUrl (grantForm signedJwt)) as [resp|err];
    [|done].
  destruct (http.StatusCode resp =? http.StatusOK); simpl; [|done].
  by destruct (json_Decode_access_token (http.Body resp)).
Qed.

End Exchange.

(** C8, as the code has it.  [getAccessToken] fails with the
    [GoogleAPIError] that carries the status and the body of the answer
    exactly when the token endpoint answered with a status other than 200.
    On a 200 it returns the [access_token] the decoder found, or the empty
    string when the body has no such key, and it fails with the wrapped
    decoder error when the body does not decode.  A token is returned only
    after a 200.  When the post itself fails, the error of the post is
    returned, wrapped as an error of posting to the token endpoint. *)
Theorem C8_exchange_outcomes (P : Platform) (logger : StructuredLogger)
    (tokenUrl signedJwt : string) (w : World) :
  let answer := http_PostForm (trace w) tokenUrl (grantForm signedJwt) in
  let r := fst (getAccessToken logger tokenUrl signedJwt w) in
  (forall (e : google_errors.GoogleAPIError) (text : string),
      r = Err (upstreamError e text)
      <-> exists resp : http.Response,
            answer = Ok resp
            /\ http.StatusCode resp <> 200
            /\ e = google_errors.mkGoogleAPIError (http.StatusCode resp)
                     (http.Body resp)
            /\ text = errors_GoogleAPIError_Error (http.StatusCode resp)
                        (http.Body resp))
  /\ (forall resp : http.Response,
        answer = Ok resp ->
        http.StatusCode resp = 200 ->
        match json_Decode_access_token (http.Body resp) with
        | Err err => r = Err (wrapError "error unmarshaling token response" err)
        | Ok (Some token) => r = Ok token
        | Ok None => r = Ok EmptyString
        end)
  /\ (forall token : string,
        r = Ok token ->
        exists resp : http.Response,
          answer = Ok resp /\ http.StatusCode resp = 200)
  /\ (forall err : error,
        answer = Err err ->
        r = Err (wrapError "error posting to token endpoint" err)).
Proof.
  intros answer r.
  assert (forall resp, answer = Ok resp -> http.StatusCode resp = 200 ->
            match json_Decode_access_token (http.Body resp) with
            | Err err => r = Err (wrapError "error unmarshaling token response" err)
            | Ok field => r = Ok (default EmptyString field)
            end) as Hok.
  { intros resp Hans Hstatus. subst r.
    rewrite (getAccessToken_OK logger tokenUrl signedJwt w resp Hans Hstatus).
    by destruct (json_Decode_access_token (http.Body resp)). }
  split; [|split; [|split]].
  - intros e text. split.
    + intros Hr. destruct answer as [resp|err] eqn:Hans.
      * destruct (decide (http.StatusCode resp = 200)) as [Hstatus|Hstatus].
        -- specialize (Hok resp eq_refl Hstatus).
           destruct (json_Decode_access_token (http.Body resp));
             rewrite Hok in Hr; discriminate.
        -- exists resp. split; [done|]. split; [done|]. subst r.
           rewrite (getAccessToken_not_OK logger tokenUrl signedJwt w resp Hans Hstatus)
             in Hr.
           by injection Hr as <- <-.
      * subst r.
        rewrite (getAccessToken_post_failed logger tokenUrl signedJwt w err Hans)
          in Hr.
        discriminate.
    + intros (resp & Hans & Hstatus & -> & ->). subst r.
      by apply getAccessToken_not_OK.
  - intros resp Hans Hstatus. specialize (Hok resp Hans Hstatus).
    by destruct (json_Decode_access_token (http.Body resp)) as [[token|]|err].
  - intros token Hr. destruct answer as [resp|err] eqn:Hans.
    + exists resp. split; [done|].
      destruct (decide (http.StatusCode resp = 200)) as [Hstatus|Hstatus]; [done|].
      subst r.
      rewrite (getAccessToken_not_OK logger tokenUrl signedJwt w resp Hans Hstatus)
        in Hr.
      discriminate.
    + subst r.
      rewrite (getAccessToken_post_failed logger tokenUrl signedJwt w err Hans)
        in Hr.
      discriminate.
  - intros err Hans. subst r. by apply getAccessToken_post_failed.
Qed.

(** C8, as stated, fails twice.  A 201 is a 2xx status, yet the exchange
    fails with the [GoogleAPIError] of that answer; and a 200 whose body is
    an object without [access_token] is not an error: the exchange returns
    the empty string as the token. *)
Lemma C8_only_200_and_no_field_check :
  (is2xx 201 = true
   /\ fst (getAccessToken
             (P := endpointPlatform (fun _ => http.mkResponse 201 (tokenBody "T")))
             testLogger ts_URL "mocked_signed_jwt" freshWorld)
      = Err (upstreamError (google_errors.mkGoogleAPIError 201 (tokenBody "T"))
               (test_errors_Error 201 (tokenBody "T"))))
  /\ (is2xx 200 = true
      /\ fst (getAccessToken
                (P := endpointPlatform (fun _ => http.mkResponse 200 "{}"))
                testLogger ts_URL "mocked_signed_jwt" freshWorld)
         = Ok EmptyString).
Proof. repeat split. Qed.

(** The two exchanges the specification lists as tests: a 200 with the token
    T, and a 400 with the body bad request. *)
Example exchange_success :
  fst (getAccessToken
         (P := endpointPlatform (fun _ => http.mkResponse 200 (tokenBody "T")))
         testLogger ts_URL "mocked_signed_jwt" freshWorld)
  = Ok "T".
Proof. reflexivity. Qed.

Example exchange_bad_request :
  fst (getAccessToken
         (P := endpointPlatform (fun _ => http.mkResponse 400 "bad request"))
         testLogger ts_URL "mocked_signed_jwt" freshWorld)
  = Err (upstreamError (google_errors.mkGoogleAPIError 400 "bad request")
           (test_errors_Error 400 "bad request")).
Proof. reflexivity. Qed.

(** ** The reply of HandleError *)

Lemma append_empty_r (s : string) : s +:+ EmptyString = s.
Proof.
  induction s as [|ch s IH]; [done|].
  change (String ch (s +:+ EmptyString) = String ch s). by rewrite IH.
Qed.





(** The documented copy of [HandleError] writes the same reply. *)
Lemma HandleError_documented_reply (logger : StructuredLogger)
    (rw : ResponseWriter) (err : error) (w : World) :
  fst (apierrors_documented.HandleError logger rw err w)
  = fst (HandleError logger rw err w).
Proof.
  destruct err as [msg|msg inner|e|e text]; try reflexivity.
  unfold apierrors_documented.HandleError, HandleError, bind, ret.
  destruct (negb (is_empty (ErrorMessage e))), (negb (is_empty (Body e)));
    reflexivity.
Qed.

(** With a logger that lets debug records through, that copy does write the
    body of the error to the log. *)
Example HandleError_documented_logs_body :
  trace (snd (apierrors_documented.HandleError
                (mkLogger "test-component" EmptyString EmptyString false LevelDebug)
                [] (apiError (mkGoogleAPIError 404 "Not Found" EmptyString
                                "Resource not found"))
                freshWorld))
  = [EvLog (mkLogRecord LevelError "API request failed"
              [mkAttr "component" (AString "test-component");
               mkAttr "logging.googleapis.com/sourceLocation" ACaller;
               mkAttr "statusCode" (AInt 404);
               mkAttr "errorCode" (AString EmptyString);
               mkAttr "errorMessage" (AString "Resource not found")]);
     EvLog (mkLogRecord LevelDebug "Detailed error response body"
              [mkAttr "component" (AString "test-component");
               mkAttr "body" (AString "Not Found")])].
Proof. reflexivity. Qed.





(** The second case of the test of the package: an error with status 403 and
    no message.  [HandleError] answers it with the same generic message as
    every other [GoogleAPIError]; the message does not depend on the error
    message being there. *)
Example HandleError_without_message :
  let reply :=
    fst (HandleError testLogger []
           (apiError (mkGoogleAPIError 403 "Forbidden" EmptyString EmptyString))
           freshWorld) in
  reply_status reply = Some 403
  /\ reply_body reply
     = "An error occurred while processing your request" +:+ newline.
Proof. split; reflexivity. Qed.

(** ** The client factory *)

Lemma networkCalls_app (tr1 tr2 : list Event) :
  networkCalls (tr1 ++ tr2) = networkCalls tr1 ++ networkCalls tr2.
Proof. unfold networkCalls. apply List.filter_app. Qed.

Section Factory.
Context {P : Platform} {T : Type} {IAM : IAMServiceClient T}.
Context (now : Time) (logger : StructuredLogger) (iamClient : T).
Context (sa user scopes : string) (tokenURL : list string).

(** The URL the signed assertion is posted to. *)
Let tokenUrl : string :=
  match tokenURL with
  | [] => tokenEndpoint
  | first :: _ => first
  end.

(** A successful call is one signature, one accepted exchange, and nothing
    else: the events it adds and the client it returns. *)
Lemma GenerateGoogleHTTPClient_Ok_inv (w w' : World) (client : Client) :
  GenerateGoogleHTTPClient now logger iamClient sa user scopes tokenURL w
  = (Ok client, w') ->
  exists (payload signedJwt accessToken : string),
    createJWTAssertion now sa user scopes = Ok payload
    /\ SignJwt iamClient (trace w) ("projects/-/serviceAccounts/" +:+ sa) payload
       = Ok {| SignedJwt := signedJwt |}
    /\ trace w'
       = trace w ++ [EvSignJwt ("projects/-/serviceAccounts/" +:+ sa) payload;
                     EvPostForm tokenUrl (grantForm signedJwt)]
    /\ cache w' = cache w
    /\ client = mkClient (mkToken accessToken None).
Proof.
  unfold GenerateGoogleHTTPClient.
  destruct (createJWTAssertion now sa user scopes) as [payload|err] eqn:Hjwt;
    [|discriminate].
  unfold bind at 1. unfold call_SignJwt, bind, history, emit, ret. simpl.
  destruct (SignJwt iamClient (trace w) ("projects/-/serviceAccounts/" +:+ sa) payload)
    as [[signedJwt]|err] eqn:Hsign; [|discriminate].
  simpl. fold tokenUrl.
  set (w1 := {| trace := trace w ++ [EvSignJwt _ payload]; cache := cache w |}).
  destruct (getAccessToken logger tokenUrl signedJwt w1) as [r w2] eqn:Hget.
  destruct r as [accessToken|err]; [|discriminate].
  intros [= <- <-].
  exists payload, signedJwt, accessToken. repeat split; try done.
  - pose proof (C := f_equal fst Hget). simpl in C.
    destruct (http_PostForm (trace w1) tokenUrl (grantForm signedJwt))
      as [resp|err] eqn:Hans.
    + destruct (decide (http.StatusCode resp = http.StatusOK)) as [Hs|Hs].
      * rewrite (getAccessToken_OK logger tokenUrl signedJwt w1 resp Hans Hs)
          in Hget.
        destruct (json_Decode_access_token (http.Body resp)); [|discriminate].
        injection Hget as _ <-. simpl. by rewrite <- app_assoc.
      * rewrite (getAccessToken_not_OK logger tokenUrl signedJwt w1 resp Hans Hs)
          in C.
        discriminate.
    + rewrite (getAccessToken_post_failed logger tokenUrl signedJwt w1 err Hans)
        in C.
      discriminate.
  - pose proof (getAccessToken_cache logger tokenUrl signedJwt w1) as Hc.
    by rewrite Hget in Hc.
Qed.

End Factory.

(** * Further properties *)

(** ** Keys of the token cache *)

Lemma append_String (c : Ascii.ascii) (s t : string) :
  String c s +:+ t = String c (s +:+ t).
Proof. reflexivity. Qed.

Lemma append_assoc (a b c : string) : (a +:+ b) +:+ c = a +:+ (b +:+ c).
Proof.
  induction a as [|ch a IH]; [done|].
  rewrite !append_String. by rewrite IH.
Qed.

Lemma differs_true (sep c : Ascii.ascii) : differs sep c = true -> c <> sep.
Proof.
  unfold differs. intros Hd ->. rewrite Ascii.eqb_refl in Hd. discriminate.
Qed.

(** Two strings without the separator, each followed by it, are equal
    when the whole strings are. *)
Lemma split_at_separator (sep : Ascii.ascii) (a1 : string) :
  forall a2 t1 t2 : string,
    all_chars (differs sep) a1 = true ->
    all_chars (differs sep) a2 = true ->
    a1 +:+ String sep t1 = a2 +:+ String sep t2 ->
    a1 = a2 /\ t1 = t2.
Proof.
  induction a1 as [|c1 a1 IH]; intros [|c2 a2] t1 t2 H1 H2 Heq;
    rewrite ?append_String in Heq; simpl in H1, H2.
  - injection Heq as ->. done.
  - injection Heq as <- _. apply andb_true_iff in H2 as [H2 _].
    by apply differs_true in H2.
  - injection Heq as -> _. apply andb_true_iff in H1 as [H1 _].
    by apply differs_true in H1.
  - injection Heq as -> Heq.
    apply andb_true_iff in H1 as [_ H1]. apply andb_true_iff in H2 as [_ H2].
    destruct (IH a2 t1 t2 H1 H2 Heq) as [-> ->]. done.
Qed.

Lemma split_element (e1 : string) :
  forall e2 t1 t2 : string,
    all_chars (differs comma) e1 = true ->
    all_chars (differs comma) e2 = true ->
    join_tail t1 -> join_tail t2 ->
    e1 +:+ t1 = e2 +:+ t2 ->
    e1 = e2 /\ t1 = t2.
Proof.
  induction e1 as [|c1 e1 IH]; intros [|c2 e2] t1 t2 H1 H2 Ht1 Ht2 Heq;
    rewrite ?append_String in Heq; simpl in H1, H2.
  - done.
  - apply andb_true_iff in H2 as [H2 _]. apply differs_true in H2.
    destruct Ht1 as [-> | [t' ->]]; [discriminate|].
    injection Heq as <- _. done.
  - apply andb_true_iff in H1 as [H1 _]. apply differs_true in H1.
    destruct Ht2 as [-> | [t' ->]]; [discriminate|].
    injection Heq as -> _. done.
  - injection Heq as -> Heq.
    apply andb_true_iff in H1 as [_ H1]. apply andb_true_iff in H2 as [_ H2].
    destruct (IH e2 t1 t2 H1 H2 Ht1 Ht2 Heq) as [-> ->]. done.
Qed.

Lemma Join_cons (e : string) (rest : list string) :
  strings_Join (e :: rest) ","
  = e +:+ match rest with
          | [] => EmptyString
          | _ :: _ => String comma (strings_Join rest ",")
          end.
Proof. destruct rest; simpl; [by rewrite append_empty_r | done]. Qed.

Lemma Join_tail (rest : list string) :
  join_tail match rest with
            | [] => EmptyString
            | _ :: _ => String comma (strings_Join rest ",")
            end.
Proof. destruct rest; [by left | right; by eexists]. Qed.

(** Joining is injective on lists of plain scopes. *)
Lemma Join_inj (s1 : list string) :
  forall s2 : list string,
    Forall (fun scope => plain_scope scope = true) s1 ->
    Forall (fun scope => plain_scope scope = true) s2 ->
    strings_Join s1 "," = strings_Join s2 "," ->
    s1 = s2.
Proof.
  induction s1 as [|e1 r1 IH]; intros [|e2 r2] H1 H2 Heq.
  - done.
  - rewrite Join_cons in Heq. apply Forall_cons in H2 as [He2 _].
    unfold plain_scope in He2. apply andb_true_iff in He2 as [He2 _].
    destruct e2; [discriminate|]. discriminate.
  - rewrite Join_cons in Heq. apply Forall_cons in H1 as [He1 _].
    unfold plain_scope in He1. apply andb_true_iff in He1 as [He1 _].
    destruct e1; [discriminate|]. discriminate.
  - apply Forall_cons in H1 as [He1 H1]. apply Forall_cons in H2 as [He2 H2].
    rewrite (Join_cons e1), (Join_cons e2) in Heq.
    unfold plain_scope in He1, He2.
    apply andb_true_iff in He1 as [_ He1]. apply andb_true_iff in He2 as [_ He2].
    destruct (split_element e1 e2 _ _ He1 He2 (Join_tail r1) (Join_tail r2) Heq)
      as [-> Htail].
    f_equal. destruct r1 as [|x r1], r2 as [|y r2]; try done.
    injection Htail as Htail. by apply IH.
Qed.

(** The key determines the identity and the scopes, for identities without
    a vertical bar and plain scopes. *)
Lemma getKey_inj (u1 u2 : string) (s1 s2 : list string) :
  all_chars (differs pipe) u1 = true ->
  all_chars (differs pipe) u2 = true ->
  Forall (fun scope => plain_scope scope = true) s1 ->
  Forall (fun scope => plain_scope scope = true) s2 ->
  getKey u1 s1 = getKey u2 s2 ->
  u1 = u2 /\ s1 = s2.
Proof.
  intros Hu1 Hu2 Hs1 Hs2 Hkey. unfold getKey in Hkey.
  change ("|" +:+ ?x) with (String pipe x) in Hkey.
  destruct (split_at_separator pipe u1 u2 _ _ Hu1 Hu2 Hkey) as [-> Hjoin].
  split; [done|]. by apply Join_inj.
Qed.

(** X1.  For identities without a vertical bar and scopes that are not
    empty and have no comma, two different (identity, scopes) pairs have
    different keys, so a [SetToken] for one of them never changes what
    [GetToken] returns for the other. *)
Theorem X1_wellformed_pairs_do_not_collide (c : TokenCache) (now : Time)
    (u1 u2 : string) (s1 s2 : list string) (t : option Token) :
  all_chars (differs pipe) u1 = true ->
  all_chars (differs pipe) u2 = true ->
  Forall (fun scope => plain_scope scope = true) s1 ->
  Forall (fun scope => plain_scope scope = true) s2 ->
  (u1, s1) <> (u2, s2) ->
  getKey u1 s1 <> getKey u2 s2
  /\ fst (GetToken (SetToken c u2 s2 t) now u1 s1) = fst (GetToken c now u1 s1).
Proof.
  intros Hu1 Hu2 Hs1 Hs2 Hne.
  assert (getKey u2 s2 <> getKey u1 s1) as Hkey.
  { intros Hkey. apply Hne.
    destruct (getKey_inj u1 u2 s1 s2 Hu1 Hu2 Hs1 Hs2 (eq_sym Hkey)) as [-> ->].
    done. }
  split; [by intros Heq; apply Hkey|].
  by apply GetToken_SetToken_other.
Qed.

Lemma X1_wellformed_pairs_do_not_collide_witness :
  getKey "a@example.com" ["scope1"; "scope2"]
  <> getKey "a@example.com" ["scope2"; "scope1"]
  /\ fst (GetToken (SetToken NewTokenCache "a@example.com" ["scope2"; "scope1"]
                      (Some (mkToken "t" None)))
            0 "a@example.com" ["scope1"; "scope2"])
     = fst (GetToken NewTokenCache 0 "a@example.com" ["scope1"; "scope2"]).
Proof.
  apply (X1_wellformed_pairs_do_not_collide NewTokenCache 0
           "a@example.com" "a@example.com"
           ["scope1"; "scope2"] ["scope2"; "scope1"] (Some (mkToken "t" None))).
  - reflexivity.
  - reflexivity.
  - repeat constructor.
  - repeat constructor.
  - discriminate.
Defined.

Lemma length_append (a b : string) :
  String.length (a +:+ b) = (String.length a + String.length b)%nat.
Proof.
  induction a as [|ch a IH]; [done|].
  rewrite append_String. simpl. by rewrite IH.
Qed.

(** X2.  The vertical bar that separates identity and scopes is not
    escaped: the identity [u|x] with first scope [y] has the key of the
    identity [u] with first scope [x|y], so a valid token stored for the
    first identity is a hit for the second, which is another identity. *)
Theorem X2_identity_collision (c : TokenCache) (now : Time)
    (u x y : string) (rest : list string) (tok : Token) :
  Valid tok now = true ->
  u +:+ "|" +:+ x <> u
  /\ getKey (u +:+ "|" +:+ x) (y :: rest) = getKey u ((x +:+ "|" +:+ y) :: rest)
  /\ fst (GetToken (SetToken c (u +:+ "|" +:+ x) (y :: rest) (Some tok))
            now u ((x +:+ "|" +:+ y) :: rest))
     = (Some tok, true).
Proof.
  intros Hv.
  assert (getKey (u +:+ "|" +:+ x) (y :: rest)
          = getKey u ((x +:+ "|" +:+ y) :: rest)) as Hkey.
  { unfold getKey. rewrite !Join_cons. by rewrite !append_assoc. }
  split; [|split; [done|]].
  - intros Heq. apply (f_equal String.length) in Heq.
    rewrite !length_append in Heq. simpl in Heq. lia.
  - erewrite GetToken_hit; [done| |done].
    by apply lookup_SetToken_same.
Qed.

Lemma X2_identity_collision_witness :
  Valid (mkToken "t" None) 0 = true
  /\ "ann" +:+ "|" +:+ "bob" <> "ann"
  /\ getKey ("ann" +:+ "|" +:+ "bob") ["s"] = getKey "ann" [("bob" +:+ "|" +:+ "s")]
  /\ fst (GetToken (SetToken NewTokenCache ("ann" +:+ "|" +:+ "bob") ["s"]
                      (Some (mkToken "t" None)))
            0 "ann" [("bob" +:+ "|" +:+ "s")])
     = (Some (mkToken "t" None), true).
Proof.
  split; [reflexivity|].
  apply (X2_identity_collision NewTokenCache 0 "ann" "bob" "s" []
           (mkToken "t" None)).
  reflexivity.
Defined.

(** ** Steps of the token cache *)

(** X3.  [SetToken] overwrites: after two stores under one key the cache is
    the one a single store of the second token gives, and the lookup
    returns the second token when it is valid. *)
Theorem X3_last_store_wins (c : TokenCache) (now : Time) (identity : string)
    (scopes : list string) (t1 : option Token) (tok : Token) :
  Valid tok now = true ->
  SetToken (SetToken c identity scopes t1) identity scopes (Some tok)
  = SetToken c identity scopes (Some tok)
  /\ fst (GetToken (SetToken (SetToken c identity scopes t1) identity scopes
                      (Some tok)) now identity scopes)
     = (Some tok, true).
Proof.
  intros Hv.
  assert (SetToken (SetToken c identity scopes t1) identity scopes (Some tok)
          = SetToken c identity scopes (Some tok)) as Hset.
  { unfold SetToken. simpl. f_equal. apply insert_insert_eq. }
  split; [done|]. rewrite Hset.
  erewrite GetToken_hit; [done| |done].
  by apply lookup_SetToken_same.
Qed.

Lemma X3_last_store_wins_witness :
  Valid (mkToken "new" None) 0 = true
  /\ SetToken (SetToken NewTokenCache "id" ["s"] (Some (mkToken "old" None)))
       "id" ["s"] (Some (mkToken "new" None))
     = SetToken NewTokenCache "id" ["s"] (Some (mkToken "new" None))
  /\ fst (GetToken (SetToken (SetToken NewTokenCache "id" ["s"]
                                (Some (mkToken "old" None)))
                      "id" ["s"] (Some (mkToken "new" None))) 0 "id" ["s"])
     = (Some (mkToken "new" None), true).
Proof.
  split; [reflexivity|].
  apply (X3_last_store_wins NewTokenCache 0 "id" ["s"]
           (Some (mkToken "old" None)) (mkToken "new" None)).
  reflexivity.
Defined.

(** X4.  A nil token can be stored.  The lookup then reports a miss at every
    time, and unlike an expired token the nil entry is not removed: the
    cache after the lookup is the cache before it. *)
Theorem X4_nil_token_stays (c : TokenCache) (now : Time) (identity : string)
    (scopes : list string) :
  GetToken (SetToken c identity scopes None) now identity scopes
  = ((None, false), SetToken c identity scopes None)
  /\ tokens (SetToken c identity scopes None) !! getKey identity scopes
     = Some None.
Proof.
  assert (tokens (SetToken c identity scopes None) !! getKey identity scopes
          = Some None) as Hlook by by apply lookup_SetToken_same.
  split; [|done]. by apply GetToken_nil.
Qed.

(** X5.  [GetToken] changes at most the entry it looks up and never adds
    one; and a second lookup at the same time returns what the first
    returned and changes nothing more. *)
Theorem X5_lookup_frame (c : TokenCache) (now : Time) (identity : string)
    (scopes : list string) :
  let c' := snd (GetToken c now identity scopes) in
  (forall key : string,
      key <> getKey identity scopes -> tokens c' !! key = tokens c !! key)
  /\ (forall (key : string) (t : option Token),
        tokens c' !! key = Some t -> tokens c !! key = Some t)
  /\ GetToken c' now identity scopes
     = (fst (GetToken c now identity scopes), c').
Proof.
  intros c'. subst c'.
  destruct (tokens c !! getKey identity scopes) as [[tok|]|] eqn:Hlook.
  - destruct (Valid tok now) eqn:Hv.
    + rewrite (GetToken_hit c now identity scopes tok Hlook Hv). simpl.
      repeat split; try done. by apply GetToken_hit.
    + rewrite (GetToken_evict c now identity scopes tok Hlook Hv). simpl.
      repeat split.
      * intros key Hne. by apply lookup_delete_ne.
      * intros key t Hsome. by apply lookup_delete_Some in Hsome as [_ ?].
      * apply GetToken_miss. simpl. apply lookup_delete_eq.
  - rewrite (GetToken_nil c now identity scopes Hlook). simpl.
    repeat split; try done. by apply GetToken_nil.
  - rewrite (GetToken_miss c now identity scopes Hlook). simpl.
    repeat split; try done. by apply GetToken_miss.
Qed.

Lemma Valid_earlier (tok : Token) (earlier later : Time) :
  earlier <= later -> Valid tok later = true -> Valid tok earlier = true.
Proof.
  intros Hle Hv. apply Valid_iff in Hv as [Hne Hexp]. apply Valid_iff.
  split; [done|]. intros e He. specialize (Hexp e He). lia.
Qed.

(** X6.  Validity only decreases with time: a lookup that hits at some time
    hits with the same token at every earlier time, and a lookup that finds
    the entry invalid finds it invalid at every later time. *)
Theorem X6_hits_are_downward_closed (c : TokenCache) (earlier later : Time)
    (identity : string) (scopes : list string) :
  earlier <= later ->
  (forall tok : Token,
      fst (GetToken c later identity scopes) = (Some tok, true) ->
      GetToken c earlier identity scopes = ((Some tok, true), c))
  /\ (forall tok : Token,
        tokens c !! getKey identity scopes = Some (Some tok) ->
        Valid tok earlier = false ->
        GetToken c later identity scopes
        = ((None, false),
           {| tokens := delete (getKey identity scopes) (tokens c) |})).
Proof.
  intros Hle. split.
  - intros tok Hhit.
    destruct (GetToken c later identity scopes) as [[r found] c1] eqn:Hget.
    simpl in Hhit. injection Hhit as -> ->.
    apply GetToken_found_inv in Hget as (tok' & [= <-] & Hlook & Hv & _).
    apply GetToken_hit; [done|]. by apply (Valid_earlier tok earlier later).
  - intros tok Hlook Hinv. apply (GetToken_evict _ _ _ _ tok); [done|].
    destruct (Valid tok later) eqn:Hv; [|done].
    apply (Valid_earlier tok earlier later Hle) in Hv. congruence.
Qed.

Lemma X6_hits_are_downward_closed_witness :
  0 <= Second
  /\ GetToken (SetToken NewTokenCache "id" ["s"] (Some (mkToken "t" (Some Hour))))
       0 "id" ["s"]
     = ((Some (mkToken "t" (Some Hour)), true),
        SetToken NewTokenCache "id" ["s"] (Some (mkToken "t" (Some Hour)))).
Proof.
  assert (0 <= Second) as Hle by (vm_compute; discriminate).
  split; [exact Hle|].
  apply (proj1 (X6_hits_are_downward_closed
                  (SetToken NewTokenCache "id" ["s"]
                     (Some (mkToken "t" (Some Hour))))
                  0 Second "id" ["s"] Hle)
           (mkToken "t" (Some Hour))).
  reflexivity.
Defined.

(** ** The structured logger *)

Lemma argsToAttrs_bound_two (args : list any) :
  (2 * length (argsToAttrs args) <= length args)%nat
  /\ (forall x : any,
        2 * length (argsToAttrs (x :: args)) <= S (length args))%nat.
Proof.
  induction args as [|a args [IH1 IH2]]; [simpl; split; [lia | intros; lia]|].
  split; [apply IH2|].
  intros x. simpl. destruct x; simpl in *; lia.
Qed.

Lemma argsToAttrs_keyvals (kvs : list (string * any)) (tail : list any) :
  argsToAttrs (keyvals kvs ++ tail)
  = List.map (fun kv => mkAttr (fst kv) (snd kv)) kvs ++ argsToAttrs tail.
Proof.
  induction kvs as [|[k v] kvs IH]; [done|].
  unfold keyvals in *. simpl. by rewrite IH.
Qed.

(** X14.  The variadic arguments of the [Log] methods: alternating string
    keys and values become the attributes of the record in the same order,
    a single argument left over at the end is dropped without notice, and
    there is never more than one attribute for two arguments. *)
Theorem X14_log_arguments (kvs : list (string * any)) (extra : any)
    (args : list any) :
  argsToAttrs (keyvals kvs) = List.map (fun kv => mkAttr (fst kv) (snd kv)) kvs
  /\ argsToAttrs (keyvals kvs ++ [extra]) = argsToAttrs (keyvals kvs)
  /\ (2 * length (argsToAttrs args) <= length args)%nat.
Proof.
  pose proof (argsToAttrs_keyvals kvs []) as Hnil.
  rewrite app_nil_r in Hnil. simpl in Hnil. rewrite app_nil_r in Hnil.
  split; [done|]. split; [|apply argsToAttrs_bound_two].
  rewrite argsToAttrs_keyvals, Hnil. simpl. by rewrite app_nil_r.
Qed.

(** *** The trace context pattern *)

Lemma span_spec (p : Ascii.ascii -> bool) (s : string) :
  forall taken rest : string,
    span p s = (taken, rest) ->
    s = taken +:+ rest /\ all_chars p taken = true.
Proof.
  induction s as [|c s IH]; intros taken rest Hspan; simpl in Hspan.
  - by injection Hspan as <- <-.
  - destruct (p c) eqn:Hp.
    + destruct (span p s) as [taken' rest'] eqn:Hs.
      injection Hspan as <- <-.
      destruct (IH taken' rest' eq_refl) as [-> Hall].
      split; [done|]. simpl. by rewrite Hp, Hall.
    + by injection Hspan as <- <-.
Qed.

(** A run of the class is taken whole when the next character is outside
    the class. *)
Lemma span_app (p : Ascii.ascii -> bool) (taken : string) (c : Ascii.ascii)
    (rest : string) :
  all_chars p taken = true ->
  p c = false ->
  span p (taken +:+ String c rest) = (taken, String c rest).
Proof.
  intros Hall Hc. induction taken as [|ch taken IH].
  - simpl. by rewrite Hc.
  - simpl in Hall. apply andb_true_iff in Hall as [Hch Hall].
    rewrite append_String. simpl. rewrite Hch. by rewrite (IH Hall).
Qed.

Lemma strip_prefix_spec (pre : string) :
  forall s rest : string, strip_prefix pre s = Some rest -> s = pre +:+ rest.
Proof.
  induction pre as [|a pre IH]; intros s rest Hstrip; simpl in Hstrip.
  - by injection Hstrip as ->.
  - destruct s as [|b s]; [discriminate|].
    destruct (Ascii.eqb a b) eqn:Hab; [|discriminate].
    apply Ascii.eqb_eq in Hab as ->. rewrite append_String.
    by rewrite (IH s rest Hstrip).
Qed.

Lemma strip_prefix_app (pre rest : string) :
  strip_prefix pre (pre +:+ rest) = Some rest.
Proof.
  induction pre as [|a pre IH]; [by destruct rest|].
  rewrite append_String. simpl. by rewrite Ascii.eqb_refl.
Qed.

(** The pattern matches the headers made of accepted parts, and returns the
    parts. *)
Lemma deconstruct_accepts (traceID spanID options : string) :
  trace_parts traceID spanID options ->
  deconstructXCloudTraceContext (traceHeader traceID spanID options)
  = (traceID, spanID, String.eqb options "1").
Proof.
  intros (Ht & Hthex & Hs & Hshex & Ho & Hodig).
  unfold deconstructXCloudTraceContext, traceHeader.
  change ("/" +:+ ?x) with (String slash x).
  rewrite (span_app isHexLower traceID slash _ Hthex eq_refl).
  change (strip_prefix "/" (String slash ?x)) with (Some x).
  cbv iota beta.
  change (";o=" +:+ ?x) with (String semicolon ("o=" +:+ x)).
  rewrite (span_app isHexLower spanID semicolon _ Hshex eq_refl).
  change (String semicolon ("o=" +:+ options)) with (";o=" +:+ options).
  rewrite strip_prefix_app.
  apply is_empty_false in Ht, Hs, Ho. rewrite Ht, Hs, Ho, Hodig. done.
Qed.

(** Whatever the pattern returns other than the three empty results comes
    from a header made of accepted parts. *)
Lemma deconstruct_inv (s : string) :
  deconstructXCloudTraceContext s = (EmptyString, EmptyString, false)
  \/ exists traceID spanID options : string,
       trace_parts traceID spanID options
       /\ s = traceHeader traceID spanID options.
Proof.
  unfold deconstructXCloudTraceContext.
  destruct (span isHexLower s) as [traceID afterTrace] eqn:H1.
  destruct (strip_prefix "/" afterTrace) as [afterSlash|] eqn:H2; [|by left].
  destruct (span isHexLower afterSlash) as [spanID afterSpan] eqn:H3.
  destruct (strip_prefix ";o=" afterSpan) as [options|] eqn:H4; [|by left].
  destruct (negb (is_empty traceID) && negb (is_empty spanID)
            && negb (is_empty options) && all_chars isDigit options) eqn:Hok;
    [|by left].
  right. exists traceID, spanID, options.
  apply andb_true_iff in Hok as [Hok Hdig].
  apply andb_true_iff in Hok as [Hok Ho].
  apply andb_true_iff in Hok as [Ht Hs].
  apply negb_true_iff, is_empty_false in Ht, Hs, Ho.
  apply span_spec in H1 as [-> Hthex]. apply span_spec in H3 as [-> Hshex].
  apply strip_prefix_spec in H2 as ->. apply strip_prefix_spec in H4 as ->.
  split; [done|]. reflexivity.
Qed.

(** X15.  [deconstructXCloudTraceContext] accepts exactly the headers
    [trace/span;o=options] whose trace and span are runs of digits and the
    letters a to f and whose options are a run of digits; it returns the
    trace and the span as they stand, and the sampling flag is set only
    when the options are exactly the digit 1.  Every other header,
    including one without the options part, gives three empty results. *)
Theorem X15_trace_header_parsing (s : string) :
  (forall traceID spanID options : string,
      trace_parts traceID spanID options ->
      s = traceHeader traceID spanID options ->
      deconstructXCloudTraceContext s
      = (traceID, spanID, String.eqb options "1"))
  /\ ((forall traceID spanID options : string,
          trace_parts traceID spanID options ->
          s <> traceHeader traceID spanID options) ->
      deconstructXCloudTraceContext s = (EmptyString, EmptyString, false)).
Proof.
  split.
  - intros traceID spanID options Hparts ->. by apply deconstruct_accepts.
  - intros Hnone. destruct (deconstruct_inv s) as [Hno | Hyes]; [done|].
    destruct Hyes as (traceID & spanID & options & Hparts & Hs).
    by destruct (Hnone traceID spanID options Hparts).
Qed.

(** X16.  A logger made for a request with an accepted trace header puts
    the trace, under the project of the logger, and the span on every
    record it writes, before the attributes of the call; the sampling
    attribute is there exactly when the options are 1, and the source
    location exactly from level error on. *)
Theorem X16_records_carry_the_trace (projectID component : string)
    (traceID spanID options : string) (level : Z) (args : list any) :
  trace_parts traceID spanID options ->
  Log_attrs
    (NewStructuredLogger_request projectID component
       (traceHeader traceID spanID options)) level args
  = [mkAttr "component" (AString component);
     mkAttr "logging.googleapis.com/trace"
       (AString ("projects/" +:+ projectID +:+ "/traces/" +:+ traceID));
     mkAttr "logging.googleapis.com/spanId" (AString spanID)]
    ++ (if String.eqb options "1"
        then [mkAttr "logging.googleapis.com/trace_sampled" (ABool true)]
        else [])
    ++ (if LevelError <=? level
        then [mkAttr "logging.googleapis.com/sourceLocation" ACaller]
        else [])
    ++ argsToAttrs args.
Proof.
  intros Hparts.
  unfold NewStructuredLogger_request, extractTraceContext.
  rewrite (deconstruct_accepts _ _ _ Hparts).
  destruct Hparts as (Ht & _ & Hs & _).
  apply is_empty_false in Ht, Hs. rewrite Ht. simpl negb. cbv iota.
  unfold Log_attrs. simpl. rewrite Hs. done.
Qed.

Lemma X16_records_carry_the_trace_witness :
  trace_parts "105445aa7843bc8bf206b120001000" "1" "1"
  /\ Log_attrs
       (NewStructuredLogger_request "test-project" "test-component"
          (traceHeader "105445aa7843bc8bf206b120001000" "1" "1"))
       LevelInfo [AString "extraKey"; AString "extraValue"]
     = [mkAttr "component" (AString "test-component");
        mkAttr "logging.googleapis.com/trace"
          (AString ("projects/" +:+ "test-project" +:+ "/traces/"
                      +:+ "105445aa7843bc8bf206b120001000"));
        mkAttr "logging.googleapis.com/spanId" (AString "1")]
       ++ (if String.eqb "1" "1"
           then [mkAttr "logging.googleapis.com/trace_sampled" (ABool true)]
           else [])
       ++ (if LevelError <=? LevelInfo
           then [mkAttr "logging.googleapis.com/sourceLocation" ACaller]
           else [])
       ++ argsToAttrs [AString "extraKey"; AString "extraValue"].
Proof.
  assert (trace_parts "105445aa7843bc8bf206b120001000" "1" "1") as Hparts
    by (repeat split; discriminate).
  split; [exact Hparts|].
  exact (X16_records_carry_the_trace "test-project" "test-component"
           "105445aa7843bc8bf206b120001000" "1" "1" LevelInfo
           [AString "extraKey"; AString "extraValue"] Hparts).
Defined.

(** ** The exchange and the factory, outcome by outcome *)

Lemma networkCalls_logs (records : list LogRecord) :
  networkCalls (EvLog <$> records) = [].
Proof. induction records as [|r records IH]; [done|]. simpl. exact IH. Qed.

Lemma Log_length (sl : StructuredLogger) (level : Z) (msg : string)
    (args : list any) :
  length (Log sl level msg args) = if minLevel sl <=? level then 1%nat else 0%nat.
Proof. unfold Log. by destruct (minLevel sl <=? level). Qed.

(** X11.  Whatever the outcome, [getAccessToken] posts exactly once, the
    JWT-bearer grant whose assertion is the signed JWT, before anything
    else; it leaves the token cache alone; a success writes no log record
    and a failure writes one error record (none when the logger is set
    above the error level). *)
Theorem X11_one_post_per_exchange (P : Platform) (logger : StructuredLogger)
    (tokenUrl signedJwt : string) (w : World) :
  let r := fst (getAccessToken logger tokenUrl signedJwt w) in
  let w' := snd (getAccessToken logger tokenUrl signedJwt w) in
  Form_Get (grantForm signedJwt) "grant_type"
  = "urn:ietf:params:oauth:grant-type:jwt-bearer"
  /\ Form_Get (grantForm signedJwt) "assertion" = signedJwt
  /\ cache w' = cache w
  /\ networkCalls (trace w')
     = networkCalls (trace w) ++ [EvPostForm tokenUrl (grantForm signedJwt)]
  /\ exists records : list LogRecord,
       trace w'
       = trace w ++ EvPostForm tokenUrl (grantForm signedJwt) :: (EvLog <$> records)
       /\ length records
          = match r with
            | Ok _ => 0%nat
            | Err _ => if minLevel logger <=? LevelError then 1%nat else 0%nat
            end.
Proof.
  intros r w'. subst r w'.
  split; [reflexivity|]. split; [reflexivity|].
  split; [apply getAccessToken_cache|].
  assert (exists records : list LogRecord,
            trace (snd (getAccessToken logger tokenUrl signedJwt w))
            = trace w ++ EvPostForm tokenUrl (grantForm signedJwt)
                           :: (EvLog <$> records)
            /\ length records
               = match fst (getAccessToken logger tokenUrl signedJwt w) with
                 | Ok _ => 0%nat
                 | Err _ => if minLevel logger <=? LevelError then 1%nat else 0%nat
                 end) as (records & Htrace & Hlen).
  { unfold getAccessToken, call_PostForm, bind, history, emit, emits, ret,
      LogError. simpl.
    destruct (http_PostForm (trace w) tokenUrl (grantForm signedJwt))
      as [resp|err]; simpl.
    - destruct (http.StatusCode resp =? http.StatusOK); simpl.
      + destruct (json_Decode_access_token (http.Body resp)); simpl.
        * exists []. split; [done|done].
        * eexists. rewrite <- app_assoc. split; [done|]. apply Log_length.
      + eexists. rewrite <- app_assoc. split; [done|]. apply Log_length.
    - eexists. rewrite <- app_assoc. split; [done|]. apply Log_length. }
  split; [|by exists records].
  rewrite Htrace, networkCalls_app. f_equal. simpl. f_equal.
  apply networkCalls_logs.
Qed.

Section FactoryOutcomes.
Context {P : Platform} {T : Type} {IAM : IAMServiceClient T}.
Context (now : Time) (logger : StructuredLogger) (iamClient : T).
Context (sa user scopes : string) (tokenURL : list string) (w : World).

Let name : string := "projects/-/serviceAccounts/" +:+ sa.

Let tokenUrl : string :=
  match tokenURL with
  | [] => tokenEndpoint
  | first :: _ => first
  end.

(** The factory, stage by stage. *)
Lemma GenerateGoogleHTTPClient_stages :
  GenerateGoogleHTTPClient now logger iamClient sa user scopes tokenURL w
  = match createJWTAssertion now sa user scopes with
    | Err err =>
        (Err (wrapError "error creating JWT assertion" err),
         {| trace := trace w
                     ++ (EvLog <$> Log logger LevelError
                                     "Error creating JWT assertion"
                                     [AString "error"; AError err]);
            cache := cache w |})
    | Ok payload =>
        let signed := {| trace := trace w ++ [EvSignJwt name payload];
                         cache := cache w |} in
        match SignJwt iamClient (trace w) name payload with
        | Err err =>
            (Err (wrapError "error signing JWT" err),
             {| trace := trace signed
                         ++ (EvLog <$> Log logger LevelError "Error signing JWT"
                                         [AString "error"; AError err]);
                cache := cache w |})
        | Ok response =>
            let exchanged :=
              getAccessToken logger tokenUrl (SignedJwt response) signed in
            match fst exchanged with
            | Err err =>
                (Err err,
                 {| trace := trace (snd exchanged)
                             ++ (EvLog <$> Log logger LevelError
                                             "Error getting access token"
                                             [AString "error"; AError err]);
                    cache := cache (snd exchanged) |})
            | Ok accessToken =>
                (Ok (mkClient (mkToken accessToken None)), snd exchanged)
            end
        end
    end.
Proof.
  unfold GenerateGoogleHTTPClient.
  destruct (createJWTAssertion now sa user scopes) as [payload|err]; [|done].
  unfold bind at 1. unfold call_SignJwt, bind, history, emit, ret. simpl.
  fold name.
  destruct (SignJwt iamClient (trace w) name payload) as [response|err]; [|done].
  simpl. fold tokenUrl.
  destruct (getAccessToken logger tokenUrl (SignedJwt response) _) as [[tok|err] w2];
    done.
Qed.

End FactoryOutcomes.

(** X8.  A call of the factory that lacks the service account, the user
    email or the scopes fails before anything leaves the process: neither
    the signer nor the token endpoint is called, the cache is untouched, and
    the error reads as the package's test expects. *)
Theorem X8_invalid_input_stays_local (P : Platform) (T : Type)
    (IAM : IAMServiceClient T) (now : Time) (logger : StructuredLogger)
    (iamClient : T) (sa user scopes : string) (tokenURL : list string)
    (w : World) :
  sa = EmptyString \/ user = EmptyString \/ scopes = EmptyString ->
  let out :=
    GenerateGoogleHTTPClient now logger iamClient sa user scopes tokenURL w in
  (exists err : error,
      fst out = Err err
      /\ Error err
         = "error creating JWT assertion: service account, user email, and scopes must all be provided")
  /\ networkCalls (trace (snd out)) = networkCalls (trace w)
  /\ cache (snd out) = cache w.
Proof.
  intros Hempty out. subst out.
  rewrite GenerateGoogleHTTPClient_stages.
  rewrite (createJWTAssertion_invalid now sa user scopes Hempty). simpl.
  split; [by eexists|]. split; [|done].
  rewrite networkCalls_app, networkCalls_logs. apply app_nil_r.
Qed.

Lemma X8_invalid_input_stays_local_witness :
  let out :=
    GenerateGoogleHTTPClient (P := testPlatform) testTime testLogger
      mockIAMClient EmptyString "test-user@example.com" "test-scope" [ts_URL]
      freshWorld in
  (exists err : error,
      fst out = Err err
      /\ Error err
         = "error creating JWT assertion: service account, user email, and scopes must all be provided")
  /\ networkCalls (trace (snd out)) = networkCalls (trace freshWorld)
  /\ cache (snd out) = cache freshWorld.
Proof.
  apply (X8_invalid_input_stays_local testPlatform MockIAMServiceClient _
           testTime testLogger mockIAMClient EmptyString
           "test-user@example.com" "test-scope" [ts_URL] freshWorld).
  by left.
Defined.

(** X9.  When the signer fails, the factory returns its error wrapped as a
    signing error and never contacts the token endpoint: the one call that
    left the process is the [SignJwt] for the service account, with the
    assertion as payload. *)
Theorem X9_no_exchange_without_signature (P : Platform) (T : Type)
    (IAM : IAMServiceClient T) (now : Time) (logger : StructuredLogger)
    (iamClient : T) (sa user scopes : string) (tokenURL : list string)
    (w : World) (payload : string) (err : error) :
  createJWTAssertion now sa user scopes = Ok payload ->
  SignJwt iamClient (trace w) ("projects/-/serviceAccounts/" +:+ sa) payload
  = Err err ->
  let out :=
    GenerateGoogleHTTPClient now logger iamClient sa user scopes tokenURL w in
  fst out = Err (wrapError "error signing JWT" err)
  /\ networkCalls (trace (snd out))
     = networkCalls (trace w)
       ++ [EvSignJwt ("projects/-/serviceAccounts/" +:+ sa) payload]
  /\ cache (snd out) = cache w.
Proof.
  intros Hjwt Hsign out. subst out.
  rewrite GenerateGoogleHTTPClient_stages, Hjwt. cbv zeta. rewrite Hsign. simpl.
  split; [done|]. split; [|done].
  rewrite !networkCalls_app, networkCalls_logs. by rewrite app_nil_r.
Qed.

Lemma X9_no_exchange_without_signature_witness :
  let out :=
    GenerateGoogleHTTPClient (P := testPlatform) testTime testLogger
      (refusingIAMClient "Gaia id not found for email test-service-account")
      "test-service-account" "test-user@example.com" "test-scope" [ts_URL]
      freshWorld in
  fst out
  = Err (wrapError "error signing JWT"
           (errorString "Gaia id not found for email test-service-account"))
  /\ networkCalls (trace (snd out))
     = networkCalls (trace freshWorld)
       ++ [EvSignJwt ("projects/-/serviceAccounts/" +:+ "test-service-account")
             testAssertion]
  /\ cache (snd out) = cache freshWorld.
Proof.
  apply (X9_no_exchange_without_signature testPlatform
           RefusingIAMServiceClient _ testTime testLogger
           (refusingIAMClient "Gaia id not found for email test-service-account")
           "test-service-account" "test-user@example.com" "test-scope"
           [ts_URL] freshWorld testAssertion
           (errorString "Gaia id not found for email test-service-account")).
  - reflexivity.
  - reflexivity.
Defined.

(** X10.  The factory succeeds exactly when the three inputs are given, the
    signer signs, the token endpoint answers the post of the signed JWT
    with status 200 and the body decodes; the client then carries the
    decoded access token, which is the empty string when the body has no
    such field, in a token without expiry. *)
Theorem X10_success_of_the_factory (P : Platform) (T : Type)
    (IAM : IAMServiceClient T) (now : Time) (logger : StructuredLogger)
    (iamClient : T) (sa user scopes : string) (tokenURL : list string)
    (w : World) (client : Client) :
  let name := "projects/-/serviceAccounts/" +:+ sa in
  let tokenUrl := match tokenURL with [] => tokenEndpoint | first :: _ => first end in
  fst (GenerateGoogleHTTPClient now logger iamClient sa user scopes tokenURL w)
  = Ok client
  <-> exists (payload : string) (response : SignJwtResponse)
             (resp : http.Response) (field : option string),
        createJWTAssertion now sa user scopes = Ok payload
        /\ SignJwt iamClient (trace w) name payload = Ok response
        /\ http_PostForm (trace w ++ [EvSignJwt name payload]) tokenUrl
             (grantForm (SignedJwt response)) = Ok resp
        /\ http.StatusCode resp = 200
        /\ json_Decode_access_token (http.Body resp) = Ok field
        /\ client = mkClient (mkToken (default EmptyString field) None).
Proof.
  intros name tokenUrl. rewrite GenerateGoogleHTTPClient_stages. fold name tokenUrl.
  destruct (createJWTAssertion now sa user scopes) as [payload|err0] eqn:Hjwt.
  2:{ simpl. split; [discriminate|]. by intros (? & ? & ? & ? & [=] & _). }
  cbv zeta.
  destruct (SignJwt iamClient (trace w) name payload) as [response|err0] eqn:Hsign.
  2:{ simpl. split; [discriminate|].
      by intros (? & ? & ? & ? & [= <-] & Hs & _); rewrite Hsign in Hs. }
  set (signed := {| trace := trace w ++ [EvSignJwt name payload];
                    cache := cache w |}).
  destruct (http_PostForm (trace signed) tokenUrl (grantForm (SignedJwt response)))
    as [resp|err0] eqn:Hpost.
  - destruct (decide (http.StatusCode resp = 200)) as [Hs|Hs].
    + rewrite (getAccessToken_OK logger tokenUrl _ signed resp Hpost Hs).
      destruct (json_Decode_access_token (http.Body resp)) as [field|err0]
        eqn:Hdec; simpl.
      * split.
        -- intros [= <-]. by exists payload, response, resp, field.
        -- intros (p' & r' & resp' & f' & [= <-] & Hs' & Hp' & _ & Hd' & ->).
           rewrite Hsign in Hs'. injection Hs' as <-.
           simpl in Hpost. rewrite Hpost in Hp'. injection Hp' as <-.
           rewrite Hdec in Hd'. by injection Hd' as <-.
      * split; [discriminate|].
        intros (p' & r' & resp' & f' & [= <-] & Hs' & Hp' & _ & Hd' & _).
        rewrite Hsign in Hs'. injection Hs' as <-.
        simpl in Hpost. rewrite Hpost in Hp'. injection Hp' as <-.
        rewrite Hdec in Hd'. discriminate.
    + rewrite (getAccessToken_not_OK logger tokenUrl _ signed resp Hpost Hs).
      split; [discriminate|].
      intros (p' & r' & resp' & f' & [= <-] & Hs' & Hp' & H200 & _).
      rewrite Hsign in Hs'. injection Hs' as <-.
      simpl in Hpost. rewrite Hpost in Hp'. injection Hp' as <-. done.
  - rewrite (getAccessToken_post_failed logger tokenUrl _ signed err0 Hpost).
    split; [discriminate|].
    intros (p' & r' & resp' & f' & [= <-] & Hs' & Hp' & _).
    rewrite Hsign in Hs'. injection Hs' as <-.
    simpl in Hpost. rewrite Hpost in Hp'. discriminate.
Qed.




(** ** HandleError and the body of the error *)

Lemma Error_withBody (body : string) (err : error) :
  Error (withBody body err) = Error err.
Proof.
  induction err as [msg|msg inner IH|e|e text]; simpl; [done| |done|done].
  by rewrite IH.
Qed.

Lemma Error_documented_withBody (body : string) (err : error) :
  apierrors_documented.Error (withBody body err) = apierrors_documented.Error err.
Proof.
  induction err as [msg|msg inner IH|e|e text]; simpl; [done| |done|done].
  by rewrite IH.
Qed.

(** X13.  [HandleError] of apierrors.go never reads the body of the error:
    with another body in the error, at the top or wrapped at any depth, it
    writes the same reply and the same log records. *)
Theorem X13_body_is_never_read (logger : StructuredLogger)
    (rw : ResponseWriter) (err : error) (w : World) (body : string) :
  HandleError logger rw (withBody body err) w = HandleError logger rw err w.
Proof.
  destruct err as [msg|msg inner|e|e text]; [done| |done|done].
  unfold HandleError. change (withBody body (wrapError msg inner))
    with (wrapError msg (withBody body inner)).
  change (Error (wrapError msg (withBody body inner)))
    with (msg +:+ ": " +:+ Error (withBody body inner)).
  change (Error (wrapError msg inner)) with (msg +:+ ": " +:+ Error inner).
  by rewrite Error_withBody.
Qed.

(** X18.  The documented copy of [HandleError] writes the body of a
    [GoogleAPIError] to the log only as a debug record: with a logger whose
    level is above debug, as every new logger is, the body has no effect on
    the reply or on the log; with a logger at debug level a body that is not
    empty is logged. *)
Theorem X18_body_only_at_debug_level (logger : StructuredLogger)
    (rw : ResponseWriter) (w : World) :
  (LevelDebug < minLevel logger ->
   forall (err : error) (body : string),
     apierrors_documented.HandleError logger rw (withBody body err) w
     = apierrors_documented.HandleError logger rw err w)
  /\ (minLevel logger <= LevelDebug ->
      forall e : GoogleAPIError,
        Body e <> EmptyString ->
        In (EvLog (mkLogRecord LevelDebug "Detailed error response body"
                     (Log_attrs logger LevelDebug
                        [AString "body"; AString (Body e)])))
           (trace (snd (apierrors_documented.HandleError logger rw (apiError e) w)))).
Proof.
  split.
  - intros Hlevel err body.
    assert ((minLevel logger <=? LevelDebug) = false) as Hquiet
      by (apply Z.leb_gt; lia).
    destruct err as [msg|msg inner|e|e text]; [done| | |done].
    + unfold apierrors_documented.HandleError.
      change (withBody body (wrapError msg inner))
        with (wrapError msg (withBody body inner)).
      change (apierrors_documented.Error (wrapError msg (withBody body inner)))
        with (msg +:+ ": " +:+ apierrors_documented.Error (withBody body inner)).
      change (apierrors_documented.Error (wrapError msg inner))
        with (msg +:+ ": " +:+ apierrors_documented.Error inner).
      by rewrite Error_documented_withBody.
    + unfold apierrors_documented.HandleError, bind, ret, LogDebug, LogError,
        emits, Log. simpl. rewrite Hquiet.
      destruct (is_empty body), (is_empty (Body e)),
        (negb (is_empty (ErrorMessage e))), (minLevel logger <=? LevelError);
        simpl; by rewrite ?app_nil_r.
  - intros Hlevel e Hbody.
    unfold apierrors_documented.HandleError, bind, ret, LogDebug, LogError,
      emits. simpl.
    apply is_empty_false in Hbody. rewrite Hbody. simpl.
    destruct (negb (is_empty (ErrorMessage e))); simpl;
      apply in_or_app; right; unfold Log;
      (assert ((minLevel logger <=? LevelDebug) = true) as ->
         by (apply Z.leb_le; lia)); simpl; by left.
Qed.

(** ** The base service client *)

(** X17.  [NewGoogleBaseServiceClient] passes the client of the factory on
    unchanged, and turns every error of the factory into a
    [GoogleAPIError]: status 404 with error code 1000 when the text of the
    error contains the phrase for an unknown service account, status 500
    otherwise.  So [HandleError] answers a failed construction with 404 or
    500 and the generic message, whatever status the token endpoint had
    answered with. *)
Theorem X17_base_client_outcomes (generate : M (result Client))
    (logger : StructuredLogger) (sa base : string) (w : World) :
  let out := NewGoogleBaseServiceClient generate logger sa base w in
  (forall client : Client,
      fst (generate w) = Ok client ->
      out = (Ok (mkGoogleBaseServiceClient client base logger), snd (generate w)))
  /\ (forall err : error,
        fst (generate w) = Err err ->
        exists e : GoogleAPIError,
          fst out = Err (apiError e)
          /\ (if strings_Contains (Error err) "Gaia id not found for email"
              then StatusCode e = 404 /\ ErrorCode e = "1000"
              else StatusCode e = 500 /\ ErrorCode e = EmptyString)
          /\ forall (handlerLogger : StructuredLogger) (w' : World),
               let reply := fst (HandleError handlerLogger [] (apiError e) w') in
               (reply_status reply = Some 404 \/ reply_status reply = Some 500)
               /\ reply_body reply
                  = "An error occurred while processing your request" +:+ newline).
Proof.
  intros out. subst out. unfold NewGoogleBaseServiceClient, bind.
  destruct (generate w) as [[client|err] w1]; simpl.
  - split; [by intros ? [= <-]|]. intros err [=].
  - split; [intros client [=]|]. intros err' [= <-].
    destruct (strings_Contains (Error err) "Gaia id not found for email");
      cbn [fst]; eexists; (split; [reflexivity|]); (split; [done|]);
      intros handlerLogger w'; (split; [cbn; auto | apply append_empty_r]).
Qed.

(** ** The token cache with the read-write lock *)

(** X7.  In the version of the cache with the [sync.RWMutex], a lookup that
    finds an entry that fails the validity check (an expired token, or a nil
    one) asks for the write lock while it still holds its own read lock.
    The write lock is granted only when no read lock is held, so the call
    does not return, however many other read locks are held.  A lookup of a
    key that is not in the map returns a miss and leaves map and lock as
    they were. *)
Theorem X7_rwmutex_lookup_blocks (c : tokencache_rwmutex.TokenCache)
    (now : Time) (identity : string) (scopes : list string) :
  tokencache_rwmutex.writer (tokencache_rwmutex.mu c) = false ->
  (forall token : option Token,
      tokencache_rwmutex.tokens c !! tokencache_rwmutex.getKey identity scopes
      = Some token ->
      tokencache_rwmutex.Valid_ptr token now = false ->
      (exists held : tokencache_rwmutex.RWMutex,
          tokencache_rwmutex.RLock (tokencache_rwmutex.mu c) = Some held
          /\ (0 < tokencache_rwmutex.readers held)%nat
          /\ tokencache_rwmutex.Lock held = None)
      /\ tokencache_rwmutex.GetToken c now identity scopes
         = tokencache_rwmutex.Blocked)
  /\ (tokencache_rwmutex.tokens c !! tokencache_rwmutex.getKey identity scopes
      = None ->
      tokencache_rwmutex.GetToken c now identity scopes
      = tokencache_rwmutex.Returns ((None, false), c)).
Proof.
  intros Hfree. destruct c as [[readers writer] tokens]. simpl in Hfree.
  subst writer. split.
  - intros token Hlook Hinvalid. split.
    + eexists. split; [reflexivity|]. split; [simpl; lia|reflexivity].
    + unfold tokencache_rwmutex.GetToken. simpl in *.
      by rewrite Hlook, Hinvalid.
  - intros Hlook. unfold tokencache_rwmutex.GetToken. simpl in *.
    by rewrite Hlook.
Qed.

Lemma X7_rwmutex_lookup_blocks_witness :
  tokencache_rwmutex.GetToken
    (tokencache_rwmutex.mkTokenCache (tokencache_rwmutex.mkRWMutex 0 false)
       {[ tokencache_rwmutex.getKey "test@example.com" ["scope1"; "scope2"]
          := Some (mkToken "expired-access-token" (Some 0)) ]})
    Hour "test@example.com" ["scope1"; "scope2"]
  = tokencache_rwmutex.Blocked.
Proof.
  apply (proj1 (X7_rwmutex_lookup_blocks
                  (tokencache_rwmutex.mkTokenCache
                     (tokencache_rwmutex.mkRWMutex 0 false)
                     {[ tokencache_rwmutex.getKey "test@example.com"
                          ["scope1"; "scope2"]
                        := Some (mkToken "expired-access-token" (Some 0)) ]})
                  Hour "test@example.com" ["scope1"; "scope2"] eq_refl)
           (Some (mkToken "expired-access-token" (Some 0)))).
  - apply lookup_singleton_eq.
  - reflexivity.
Defined.

(** The cache the test of the package would build with the first version:
    the store returns, and the lookup of the expired token it stored does
    not. *)
Example rwmutex_expired_token_test :
  match tokencache_rwmutex.SetToken tokencache_rwmutex.NewTokenCache
          "test@example.com" ["scope1"; "scope2"]
          (Some (mkToken "expired-access-token" (Some 0))) with
  | tokencache_rwmutex.Returns c =>
      tokencache_rwmutex.GetToken c Hour "test@example.com" ["scope1"; "scope2"]
      = tokencache_rwmutex.Blocked
  | tokencache_rwmutex.Blocked => False
  end.
Proof. vm_compute. reflexivity. Qed.

(** ** The token of the factory in the cache *)

(** X19.  The token in the client of the factory has no expiry.  A caller
    that stores it in the token cache gets it back at every later time when
    its access token is not empty, the hour of the assertion
    notwithstanding; the token with the empty access token, which the
    factory builds when the answer has no such field, is never a hit and is
    removed by the first lookup. *)
Theorem X19_factory_token_never_expires (P : Platform) (T : Type)
    (IAM : IAMServiceClient T) (now : Time) (logger : StructuredLogger)
    (iamClient : T) (sa user scopes : string) (tokenURL : list string)
    (w : World) (client : Client) :
  fst (GenerateGoogleHTTPClient now logger iamClient sa user scopes tokenURL w)
  = Ok client ->
  Expiry (Source client) = None
  /\ forall (c : TokenCache) (identity : string) (scopeList : list string)
            (later : Time),
       GetToken (SetToken c identity scopeList (Some (Source client)))
         later identity scopeList
       = if is_empty (AccessToken (Source client))
         then ((None, false),
               {| tokens := delete (getKey identity scopeList)
                              (tokens (SetToken c identity scopeList
                                         (Some (Source client)))) |})
         else ((Some (Source client), true),
               SetToken c identity scopeList (Some (Source client))).
Proof.
  intros Hok.
  destruct (GenerateGoogleHTTPClient now logger iamClient sa user scopes tokenURL w)
    as [r w'] eqn:Hcall.
  simpl in Hok. subst r.
  apply GenerateGoogleHTTPClient_Ok_inv in Hcall
    as (payload & signedJwt & accessToken & _ & _ & _ & _ & ->).
  split; [done|].
  intros c identity scopeList later. cbn [Source AccessToken].
  destruct (is_empty accessToken) eqn:Hempty.
  - apply (GetToken_evict _ _ _ _ (mkToken accessToken None)).
    + by apply lookup_SetToken_same.
    + unfold Valid. simpl. by rewrite Hempty.
  - apply GetToken_hit.
    + by apply lookup_SetToken_same.
    + unfold Valid, expired. simpl. by rewrite Hempty.
Qed.

Lemma X19_factory_token_never_expires_witness :
  let client := mkClient (mkToken "mocked_access_token" None) in
  Expiry (Source client) = None
  /\ forall (c : TokenCache) (identity : string) (scopeList : list string)
            (later : Time),
       GetToken (SetToken c identity scopeList (Some (Source client)))
         later identity scopeList
       = if is_empty (AccessToken (Source client))
         then ((None, false),
               {| tokens := delete (getKey identity scopeList)
                              (tokens (SetToken c identity scopeList
                                         (Some (Source client)))) |})
         else ((Some (Source client), true),
               SetToken c identity scopeList (Some (Source client))).
Proof.
  apply (X19_factory_token_never_expires testPlatform MockIAMServiceClient _
           testTime testLogger mockIAMClient "test-service-account"
           "test-user@example.com" "test-scope" [ts_URL] freshWorld
           (mkClient (mkToken "mocked_access_token" None))).
  vm_compute. reflexivity.
Defined.

(** ** The assertion built with Sprintf *)

(** X20.  The first version of [createJWTAssertion] copies its inputs into
    the JSON text without escaping them, so the text does not determine the
    claims: a user email that ends with the text the template puts between
    the subject and the scope, followed by [x], gives with the scopes [s]
    the very assertion that the plain user email gives with the scopes
    that begin with [x] and that text. *)
Theorem X20_sprintf_assertion_is_ambiguous (now : Time) (sa u x s : string) :
  sa <> EmptyString -> u <> EmptyString -> s <> EmptyString ->
  let between := serviceaccount_sprintf.next_string "scope" in
  (u +:+ between +:+ x, s) <> (u, x +:+ between +:+ s)
  /\ serviceaccount_sprintf.createJWTAssertion now sa (u +:+ between +:+ x) s
     = serviceaccount_sprintf.createJWTAssertion now sa u (x +:+ between +:+ s)
  /\ exists payload : string,
       serviceaccount_sprintf.createJWTAssertion now sa u (x +:+ between +:+ s)
       = Ok payload.
Proof.
  intros Hsa Hu Hs between.
  assert (is_empty (u +:+ between +:+ x) = false) as Hux
    by (destruct u; [done|reflexivity]).
  assert (is_empty (x +:+ between +:+ s) = false) as Hxs
    by (destruct x; reflexivity).
  apply is_empty_false in Hsa, Hu, Hs.
  split; [|split].
  - intros [= Heq _]. apply (f_equal String.length) in Heq.
    rewrite !length_append in Heq. subst between. simpl in Heq. lia.
  - unfold serviceaccount_sprintf.createJWTAssertion.
    rewrite Hsa, Hu, Hs, Hux, Hxs. simpl orb. cbv iota.
    fold between. f_equal. f_equal. by rewrite !append_assoc.
  - unfold serviceaccount_sprintf.createJWTAssertion.
    rewrite Hsa, Hu, Hxs. simpl orb. cbv iota. by eexists.
Qed.

Lemma X20_sprintf_assertion_is_ambiguous_witness :
  let between := serviceaccount_sprintf.next_string "scope" in
  ("u@example.com" +:+ between +:+ "admin", "read")
  <> ("u@example.com", "admin" +:+ between +:+ "read")
  /\ serviceaccount_sprintf.createJWTAssertion testTime "sa"
       ("u@example.com" +:+ between +:+ "admin") "read"
     = serviceaccount_sprintf.createJWTAssertion testTime "sa"
         "u@example.com" ("admin" +:+ between +:+ "read")
  /\ exists payload : string,
       serviceaccount_sprintf.createJWTAssertion testTime "sa"
         "u@example.com" ("admin" +:+ between +:+ "read")
       = Ok payload.
Proof.
  apply (X20_sprintf_assertion_is_ambiguous testTime "sa" "u@example.com"
           "admin" "read"); discriminate.
Defined.

(** ** The requests of the base service client *)

Section Requests.
Context {N : Transport}.
Context (c : GoogleBaseServiceClient) (endpoint : string) (w : World).



End Requests.


(** The answer 201: an error for the GET, a result for the POST. *)
Example created_is_an_error_for_get_only :
  fst (MakeRequest (N := answeringTransport (http.mkResponse 201 "created"))
         testBaseClient "items" [] freshWorld)
  = Err (errorString "API request failed with status 201: created")
  /\ fst (MakePostRequest (N := answeringTransport (http.mkResponse 201 "created"))
            testBaseClient "items" ∅ "{}" freshWorld)
     = Ok "created".
Proof. split; reflexivity. Qed.



(** ** The factory with the token cache *)

Section CachedFactory.
Context {P : Platform} {T : Type} {IAM : IAMServiceClient T}.
Context (scopeList : string -> list string).
Context (logger : StructuredLogger) (iamClient : T).
Context (sa user scopes : string) (tokenURL : list string).

Let name : string := "projects/-/serviceAccounts/" +:+ sa.

Let tokenUrl : string :=
  match tokenURL with
  | [] => tokenEndpoint
  | first :: _ => first
  end.



End CachedFactory.



